(** * cotizaciones-bcu: the seeding pipeline of [src/seed.js] and the
    loader of [src/models/currency-day.js]

    A shallow embedding of the extraction-transform-load code and the
    properties its specification states about it.

    Conventions of the embedding.
    - A JavaScript string is a [string]; each [ascii] stands for one code
      unit below 256 (the documents are Latin-1 text).
    - A thrown exception is the [Throw] case of [Js.result].
    - The object [days] of [makeArrayOfDays], used as a map from the
      formatted date to the day, is a [gmap string Day].
    - [moment] is a library the repository depends on; the part of it the
      code calls is modelled in [Moment]. *)

From Stdlib Require Import ZArith Lia Ascii String List Bool.
From Stdlib Require Import DecimalString DecimalN DecimalPos.
From stdpp Require Import base option strings list gmap.

Local Open Scope string_scope.
Local Open Scope Z_scope.

(** ** JavaScript values and exceptions *)

Module Js.

(** What can be thrown or handed to a callback as [err]. The code
    itself only ever raises a [TypeError] (a method looked up on
    [undefined] or on a number, a non-function called); [Error] is
    [new Error(message)], and a [StoreError] is an error the database
    driver reports. *)
Inductive Exception : Type :=
| TypeError (what : string)
| Error (message : string)
| StoreError (what : string).

Inductive result (A : Type) : Type :=
| Ok (a : A)
| Throw (e : Exception).
Arguments Ok {A} a.
Arguments Throw {A} e.

Definition bind {A B} (r : result A) (k : A -> result B) : result B :=
  match r with
  | Ok a => k a
  | Throw e => Throw e
  end.

(** A cell of a sheet row as [xlsx.utils.sheet_to_json(.., {header: 1})]
    delivers it: a hole or blank ([undefined]), a number, or a string.

    A number is kept as the string [String(n)] renders it: the code only
    ever asks a cell whether it is truthy, for its string conversion, and
    for string methods (which a number does not have). *)
Inductive Value : Type :=
| Undefined
| Number (rendering : string)
| Str (s : string).

(** [String(v)], as in a template literal and in [RegExp.prototype.test]. *)
Definition to_string (v : Value) : string :=
  match v with
  | Undefined => "undefined"
  | Number r => r
  | Str s => s
  end.

(** [ToBoolean]: [undefined], [""], [0], [-0] and [NaN] are falsy. Both
    zeros render as ["0"]. *)
Definition truthy (v : Value) : bool :=
  match v with
  | Undefined => false
  | Number r => negb (String.eqb r "0" || String.eqb r "NaN")
  | Str s => negb (String.eqb s "")
  end.

(** [a || b] *)
Definition or (a b : Value) : Value := if truthy a then a else b.


(** A text cell or a hole. *)
Definition not_a_number (v : Value) : Prop := forall r, v <> Number r.

(** [line[i]]: reading past the end of an array gives [undefined]. *)
Definition index (line : list Value) (i : nat) : Value :=
  nth i line Undefined.

(** *** Strings *)

Definition code (c : ascii) : N := N_of_ascii c.

(** [String.prototype.toLowerCase] on code units below 256: A-Z, and the
    Latin-1 capitals U+00C0..U+00DE except the multiplication sign. *)
Definition lower_char (c : ascii) : ascii :=
  let n := code c in
  if ((65 <=? n) && (n <=? 90))%N then ascii_of_N (n + 32)
  else if ((192 <=? n) && (n <=? 222) && negb (n =? 215))%N
       then ascii_of_N (n + 32)
  else c.

Fixpoint toLowerCase (s : string) : string :=
  match s with
  | EmptyString => EmptyString
  | String c s' => String (lower_char c) (toLowerCase s')
  end.

(** White space and line terminators below 256: TAB, LF, VT, FF, CR,
    SP and NBSP. *)
Definition is_space (c : ascii) : bool :=
  let n := code c in
  (((9 <=? n) && (n <=? 13)) || (n =? 32) || (n =? 160))%N.

Fixpoint trimStart (s : string) : string :=
  match s with
  | EmptyString => EmptyString
  | String c s' => if is_space c then trimStart s' else s
  end.

Fixpoint trimEnd (s : string) : string :=
  match s with
  | EmptyString => EmptyString
  | String c s' =>
      match trimEnd s' with
      | EmptyString => if is_space c then EmptyString else String c EmptyString
      | t => String c t
      end
  end.

(** [String.prototype.trim] *)
Definition trim (s : string) : string := trimEnd (trimStart s).

(** [s.replace(c, d)] with one-character strings [c] and [d]: a string
    pattern replaces the first occurrence only. *)
Fixpoint replace (c d : ascii) (s : string) : string :=
  match s with
  | EmptyString => EmptyString
  | String x s' => if Ascii.eqb x c then String d s' else String x (replace c d s')
  end.

(** A string that does not begin with a space. *)
Definition clean_start (s : string) : Prop :=
  match s with
  | EmptyString => True
  | String c _ => is_space c = false
  end.

End Js.

Export Js(result, Ok, Throw, Value, Undefined, Number, Str).

Global Instance result_bind : MBind result := fun A B k r => Js.bind r k.
Global Instance result_ret : MRet result := @Js.Ok.

(** ** Regular expressions

  Anchored regular expressions [/^r$/] without flags, over code units.
  [test] decides a match by Brzozowski derivatives. *)

Module RegExp.

Inductive regex : Type :=
| Void
| Eps
| Class (p : ascii -> bool)
| Seq (r1 r2 : regex)
| Alt (r1 r2 : regex)
| Star (r : regex).

(** [r+] and [r?] *)
Definition Plus (r : regex) : regex := Seq r (Star r).
Definition Opt (r : regex) : regex := Alt r Eps.

(** [\d]: without the unicode flag, exactly 0-9. *)
Definition is_digit (c : ascii) : bool :=
  ((48 <=? Js.code c) && (Js.code c <=? 57))%N.
Definition digit : regex := Class is_digit.

(** [[.,]] *)
Definition is_separator (c : ascii) : bool :=
  Ascii.eqb c "." || Ascii.eqb c ",".

Fixpoint nullable (r : regex) : bool :=
  match r with
  | Void => false
  | Eps => true
  | Class _ => false
  | Seq r1 r2 => nullable r1 && nullable r2
  | Alt r1 r2 => nullable r1 || nullable r2
  | Star _ => true
  end.

Fixpoint deriv (c : ascii) (r : regex) : regex :=
  match r with
  | Void => Void
  | Eps => Void
  | Class p => if p c then Eps else Void
  | Seq r1 r2 =>
      if nullable r1
      then Alt (Seq (deriv c r1) r2) (deriv c r2)
      else Seq (deriv c r1) r2
  | Alt r1 r2 => Alt (deriv c r1) (deriv c r2)
  | Star r1 => Seq (deriv c r1) (Star r1)
  end.

(** A word is the list of the code units of a string. *)
Fixpoint matches (r : regex) (w : list ascii) : bool :=
  match w with
  | [] => nullable r
  | c :: w' => matches (deriv c r) w'
  end.

(** [/^r$/.test(v)]: the argument is converted to a string first. *)
Definition test (r : regex) (v : Value) : bool :=
  matches r (list_ascii_of_string (Js.to_string v)).

(** The words of a regular expression. *)
Inductive lang : regex -> list ascii -> Prop :=
| lang_eps : lang Eps []
| lang_class p c : p c = true -> lang (Class p) [c]
| lang_seq r1 r2 w1 w2 :
    lang r1 w1 -> lang r2 w2 -> lang (Seq r1 r2) (w1 ++ w2)%list
| lang_alt_l r1 r2 w : lang r1 w -> lang (Alt r1 r2) w
| lang_alt_r r1 r2 w : lang r2 w -> lang (Alt r1 r2) w
| lang_star_nil r : lang (Star r) []
| lang_star_cons r w1 w2 :
    lang r w1 -> lang (Star r) w2 -> lang (Star r) (w1 ++ w2)%list.

End RegExp.

(** ** The part of [moment] the code calls

  [moment] (2.x, locale [es]) is a dependency, not code of the
  repository. The model follows the library's parser for a format
  string, [configFromStringAndFormat], on the one format the code uses,
  ['D-MMM-YYYY'], in the forgiving (non-strict) mode the code asks for:
  each token of the format is looked for in what is left of the input,
  text in front of a match is skipped, and a token that is not found is
  left out and later filled in by a default. *)

Module Moment.

(** The current UTC date, [new Date(Date.now())], read by the parser
    when the input gives no year: [getUTCFullYear()], [getUTCMonth()]
    (0 to 11) and [getUTCDate()]. *)
Record Today : Type := { now_year : N; now_month : N; now_date : N }.

(** A moment made from this format has no time of day: it is invalid,
    or it is midnight UTC of a calendar day, month 1 to 12. *)
Inductive t : Type :=
| Invalid
| UtcDay (year month day : Z).

Definition isValid (m : t) : bool :=
  match m with Invalid => false | UtcDay _ _ _ => true end.

(** *** Calendar *)

Definition isLeapYear (year : Z) : bool :=
  ((year mod 4 =? 0) && negb (year mod 100 =? 0)) || (year mod 400 =? 0).

(** [daysInMonth(year, month)], [month] from 0 to 11. *)
Definition daysInMonth (year month : Z) : Z :=
  if month =? 1 then (if isLeapYear year then 29 else 28)
  else 31 - ((month mod 7) mod 2).

(** ECMAScript's day number of the first of January ([DayFromYear]) and
    of a day of a year, as [Date.UTC] computes it. *)
Definition DayFromYear (y : Z) : Z :=
  365 * (y - 1970) + (y - 1969) / 4 - (y - 1901) / 100 + (y - 1601) / 400.

Fixpoint daysBefore (year : Z) (months : nat) : Z :=
  match months with
  | O => 0
  | S k => daysBefore year k + daysInMonth year (Z.of_nat k)
  end.

Definition msPerDay : Z := 86400000.

(** [valueOf()]: milliseconds since the epoch; [None] is [NaN]. *)
Definition valueOf (m : t) : option Z :=
  match m with
  | Invalid => None
  | UtcDay y mo d =>
      Some ((DayFromYear y + daysBefore y (Z.to_nat (mo - 1)) + (d - 1)) * msPerDay)
  end.

(** [toDate()]: a JavaScript [Date], which is its time value. *)
Definition toDate (m : t) : option Z := valueOf m.

(** [this.isSameOrBefore(input)], where [input] is [null] ([None]) or a
    [Date] with a time value: [false] as soon as either side is
    invalid, and [moment(null)] is invalid. *)
Definition isSameOrBefore (m : t) (input : option Z) : bool :=
  match valueOf m, input with
  | Some a, Some b => (a =? b) || (a <? b)
  | _, _ => false
  end.

(** *** Formatting *)

Definition digits_of (n : N) : string := NilEmpty.string_of_uint (N.to_uint n).

Fixpoint zeros (k : nat) : string :=
  match k with O => "" | S k' => String "0" (zeros k') end.

(** [zeroFill(number, targetLength)] *)
Definition zeroFill (number : Z) (targetLength : nat) : string :=
  let absNumber := digits_of (Z.abs_N number) in
  let fill := zeros (targetLength - String.length absNumber) ++ absNumber in
  if 0 <=? number then fill else String "-" fill.

(** [format('L')]; in the [es] locale [L] is ['DD/MM/YYYY']. *)
Definition format_L (m : t) : string :=
  match m with
  | Invalid => "Invalid date"
  | UtcDay y mo d => zeroFill d 2 ++ "/" ++ zeroFill mo 2 ++ "/" ++ zeroFill y 4
  end.

(** *** Parsing *)

Definition isSome {A} (o : option A) : bool :=
  match o with Some _ => true | None => false end.

(** [toInt] of a run of digits. *)
Fixpoint toInt_from (acc : Z) (s : string) : Z :=
  match s with
  | EmptyString => acc
  | String c s' => toInt_from (10 * acc + (Z.of_N (Js.code c) - 48)) s'
  end.
Definition toInt (s : string) : Z := toInt_from 0 s.

(** The greedy run of at most [max] digits at the start of [s]. *)
Fixpoint take_digits (max : nat) (s : string) : string * string :=
  match max, s with
  | S k, String c s' =>
      if RegExp.is_digit c
      then let '(run, rest) := take_digits k s' in (String c run, rest)
      else (EmptyString, s)
  | _, _ => (EmptyString, s)
  end.

(** [string.match(/\d{1,max}/)]: the leftmost run, and the input after
    it. *)
Fixpoint find_digits (max : nat) (s : string) : option (string * string) :=
  match s with
  | EmptyString => None
  | String c s' =>
      if RegExp.is_digit c then Some (take_digits max s) else find_digits max s'
  end.

(** The literal token [-]: the input after the leftmost dash; the input
    is left as it is when it has none. *)
Fixpoint after_dash (s : string) : option string :=
  match s with
  | EmptyString => None
  | String c s' => if Ascii.eqb c "-" then Some s' else after_dash s'
  end.
Definition skip_dash (s : string) : string := default s (after_dash s).

(** Locale [es]. *)
Definition months : list string :=
  ["enero"; "febrero"; "marzo"; "abril"; "mayo"; "junio"; "julio";
   "agosto"; "septiembre"; "octubre"; "noviembre"; "diciembre"].
Definition monthsParse : list string :=
  ["ene"; "feb"; "mar"; "abr"; "may"; "jun"; "jul"; "ago"; "sep"; "oct";
   "nov"; "dic"].

(** What is left of [s] after the prefix [p], compared ignoring case. *)
Fixpoint strip_prefix_i (p s : string) : option string :=
  match p, s with
  | EmptyString, _ => Some s
  | String a p', String b s' =>
      if Ascii.eqb (Js.lower_char a) (Js.lower_char b)
      then strip_prefix_i p' s' else None
  | String _ _, EmptyString => None
  end.

Definition optional_dot (s : string) : string :=
  match s with
  | String c s' => if Ascii.eqb c "." then s' else s
  | EmptyString => s
  end.

(** [monthsShortRegex]:
    [/^(enero|febrero|...|diciembre|ene\.?|feb\.?|...|dic\.?)/i].
    The alternatives are tried in order; the result is the input left
    after the first one that matches. *)
Definition alternatives : list (string * bool) :=
  map (fun m => (m, false)) months ++ map (fun m => (m, true)) monthsParse.

Fixpoint exec_alternatives (alts : list (string * bool)) (s : string)
  : option string :=
  match alts with
  | [] => None
  | (p, dot) :: alts' =>
      match strip_prefix_i p s with
      | Some rest => Some (if dot then optional_dot rest else rest)
      | None => exec_alternatives alts' s
      end
  end.

(** [localeMonthsParse(monthName)]: the index of the first of
    [/^ene/i], ..., [/^dic/i] that matches. *)
Fixpoint first_month (names : list string) (i : Z) (monthName : string)
  : option Z :=
  match names with
  | [] => None
  | p :: names' =>
      if isSome (strip_prefix_i p monthName) then Some i
      else first_month names' (i + 1) monthName
  end.

(** The token [YYYY]: two digits are a year of the current or the last
    century ([parseTwoDigitYear]). *)
Definition parse_year (input : string) : Z :=
  if (String.length input =? 2)%nat
  then toInt input + (if 68 <? toInt input then 1900 else 2000)
  else toInt input.

(** [checkOverflow]: month 0 to 11, day within the month. *)
Definition overflow (y mo d : Z) : bool :=
  (mo <? 0) || (11 <? mo) || (d <? 1) || (daysInMonth y mo <? d).

(** What the tokens of ['D-MMM-YYYY'] find in the input, one after the
    other: the day, the text of the month, the year. *)
Definition scan (input : string) : option Z * option string * option Z :=
  (* D *)
  let '(day, s1) :=
    match find_digits 2 input with
    | Some (run, rest) => (Some (toInt run), rest)
    | None => (None, input)
    end in
  (* - *)
  let s2 := skip_dash s1 in
  (* MMM *)
  let '(monthName, s3) :=
    match exec_alternatives alternatives s2 with
    | Some rest =>
        (Some (substring 0 (String.length s2 - String.length rest) s2), rest)
    | None => (None, s2)
    end in
  (* - *)
  let s4 := skip_dash s3 in
  (* YYYY *)
  let year := (fun found => parse_year (fst found)) <$> find_digits 4 s4 in
  (day, monthName, year).

(** [configFromArray]: what is missing in front of the first field
    given comes from today; what is missing behind it is the first
    month and the first day. Months count from 0 here. *)
Definition configFromArray (now : Today) (year month day : option Z)
  : Z * Z * Z :=
  match year, month, day with
  | Some y, _, _ => (y, default 0 month, default 1 day)
  | None, Some mo, _ => (Z.of_N (now_year now), mo, default 1 day)
  | None, None, Some d => (Z.of_N (now_year now), Z.of_N (now_month now), d)
  | None, None, None =>
      (Z.of_N (now_year now), Z.of_N (now_month now), Z.of_N (now_date now))
  end.

(** [moment.utc(input, 'D-MMM-YYYY')]: invalid when no token found
    anything ([empty]), when the text of the month is no month
    ([invalidMonth]), or when the day does not exist ([overflow]). *)
Definition utc (now : Today) (input : string) : t :=
  let '(day, monthName, year) := scan input in
  let month := monthName ≫= first_month monthsParse 0 in
  let empty := negb (isSome day || isSome monthName || isSome year) in
  let invalidMonth := isSome monthName && negb (isSome month) in
  let '(y, mo, d) := configFromArray now year month day in
  if empty || invalidMonth || overflow y mo d then Invalid
  else UtcDay y (mo + 1) d.

(** The moments the parser makes: invalid, or a day of the calendar. *)
Definition calendar (m : t) : Prop :=
  match m with
  | Invalid => True
  | UtcDay y mo d => 0 <= y /\ 1 <= mo <= 12 /\ 1 <= d <= daysInMonth y (mo - 1)
  end.

(** One for a leap year. *)
Definition leap_day (y : Z) : Z := if isLeapYear y then 1 else 0.

End Moment.

(** ** The days handed from [src/seed.js] to [src/models/currency-day.js] *)

(** An element of [currencies] and a value of [days]. [buy] and [sell]
    are what [getValue] returns: a string or [null]. [date] is a
    JavaScript [Date], that is its time value, [None] for [NaN]. *)
Record Currency : Type := { iso : string; buy : option string; sell : option string }.
Record Day : Type := { date : option Z; currencies : list Currency }.

(** ** [src/models/currency-day.js] *)

Module CurrencyDay.

(** Modelled from the spec: the relational store behind
    [db.connection()] ([./config/db-connection] and the table
    [currencyDay] are not among the sources). The table has no uniqueness
    constraint; a statement fails as a whole, with the driver's error, or
    takes effect; an [INSERT] reports the number of rows it added. *)
Record Row : Type := {
  row_iso : string; row_date : option Z;
  row_buy : option string; row_sell : option string
}.

Record Db : Type := {
  currencyDay : list Row;          (* the table *)
  failure : option string;         (* the error every query meets, if any *)
  writes : list (list Row)         (* the INSERT statements received *)
}.

(** [INSERT INTO currencyDay(iso, date, buy, sell) VALUES ?] with the list
    of rows for [?]; [Ok n] is [result.affectedRows = n]. With no row the
    statement ends after [VALUES] and the server rejects it. *)
Definition query_insert (inserts : list Row) (db : Db) : result Z * Db :=
  let db' := {| currencyDay := currencyDay db; failure := failure db;
                writes := writes db ++ [inserts] |} in
  match failure db, inserts with
  | Some e, _ => (Throw (Js.StoreError e), db')
  | None, [] => (Throw (Js.StoreError "ER_PARSE_ERROR"), db')
  | None, _ =>
      (Ok (Z.of_nat (length inserts)),
       {| currencyDay := currencyDay db ++ inserts; failure := None;
          writes := writes db ++ [inserts] |})
  end.

(** [SELECT MAX(date) lastDate FROM currencyDay]: one result row, whose
    [lastDate] is [NULL] on an empty table. *)
Definition max_date (table : list Row) : option Z :=
  foldr (fun r acc =>
           match row_date r, acc with
           | Some a, Some b => Some (Z.max a b)
           | Some a, None => Some a
           | None, _ => acc
           end) None table.

Definition query_max_date (db : Db) : result (list (option Z)) :=
  match failure db with
  | Some e => Throw (Js.StoreError e)
  | None => Ok [max_date (currencyDay db)]
  end.

(** [function getLastDate(cb)] *)
Definition getLastDate (db : Db) : result (option Z) :=
  results ← query_max_date db;
  match results with
  | [lastDate] => mret lastDate
  | _ => Throw (Js.Error "Forgot how to do max!")
  end.

(** What [insertDays] may be handed as [days]: [null] or [undefined], an
    array, or a plain object such as the [days] of [makeArrayOfDays]. *)
Inductive DaysArg : Type :=
| Nothing
| ArrayOfDays (days : list Day)
| ObjectOfDays (days : gmap string Day).

(** The body of the two nested [forEach]: one element of [inserts] per
    currency of each day,
    [[currency.iso, day.date, currency.buy, currency.sell]]. *)
Definition insert_row (day : Day) (currency : Currency) : Row :=
  {| row_iso := iso currency; row_date := date day;
     row_buy := buy currency; row_sell := sell currency |}.

Definition inserts_of (days : list Day) : list Row :=
  flat_map (fun day => insert_row day <$> currencies day) days.

(** [function insertDays(days, cb)]: [Ok n] is [cb(null, n)], a
    [StoreError] is [cb(err)], a [TypeError] is thrown.

    On a plain object, [days.length] is the property of that name if
    there is one and [undefined] otherwise, never the number 0, so the
    guard lets it through; [days.forEach] is likewise never a function. *)
Definition insertDays (days : DaysArg) (db : Db) : result Z * Db :=
  match days with
  | Nothing => (Ok 0, db)
  | ArrayOfDays [] => (Ok 0, db)
  | ArrayOfDays days => query_insert (inserts_of days) db
  | ObjectOfDays _ => (Throw (Js.TypeError "days.forEach is not a function"), db)
  end.

(** The two conditions of [getRatesFromDate]'s statement on a row. A
    [NULL] date satisfies neither. *)
Definition on_or_before (date : Z) (r : Row) : bool :=
  match row_date r with
  | Some t => t <=? date
  | None => false
  end.

Definition dated (m : option Z) (r : Row) : bool :=
  match row_date r, m with
  | Some t, Some m => t =? m
  | _, _ => false
  end.

(** [SELECT * FROM currencyDay WHERE date =
      (SELECT MAX(date) FROM currencyDay WHERE date <= ?)] *)
Definition query_rates (date : Z) (db : Db) : result (list Row) :=
  match failure db with
  | Some e => Throw (Js.StoreError e)
  | None =>
      Ok (List.filter
            (dated (max_date (List.filter (on_or_before date) (currencyDay db))))
            (currencyDay db))
  end.

(** [function getRatesFromDate(date, cb)]; [date] is the time value of
    the [Date] asked for. *)
Definition getRatesFromDate (date : Z) (db : Db) : result (list Row) :=
  rates ← query_rates date db; mret rates.

End CurrencyDay.

(** ** [src/seed.js] *)

Module Seed.

(** [./constants/columns] and [./constants/currencies] are not among the
    sources: the column of each field and the codes of the four
    currencies are parameters of the model. *)
Record Columns : Type := {
  DAY : nat; MONTH : nat; YEAR : nat;
  USD_BUY : nat; USD_SELL : nat;
  ARS_BUY : nat; ARS_SELL : nat;
  BRL_BUY : nat; BRL_SELL : nat;
  EUR_BUY : nat; EUR_SELL : nat
}.

Record Currencies : Type := { USD : string; ARS : string; BRL : string; EUR : string }.

(** [const INT_REGEX = /^\d+$/;] *)
Definition INT_REGEX : RegExp.regex := RegExp.Plus RegExp.digit.

(** [const FLOAT_REGEX = /^\d+([.,]\d+)?$/;] *)
Definition FLOAT_REGEX : RegExp.regex :=
  RegExp.Seq (RegExp.Plus RegExp.digit)
    (RegExp.Opt (RegExp.Seq (RegExp.Class RegExp.is_separator)
                            (RegExp.Plus RegExp.digit))).

(** [function getValue(value)]:
    [FLOAT_REGEX.test(value) ? value.replace(',','.') : null].
    [null] is [None]. A number has no [replace] method. *)
Definition getValue (value : Value) : result (option string) :=
  if RegExp.test FLOAT_REGEX value then
    match value with
    | Str s => Ok (Some (Js.replace "," "." s))
    | _ => Throw (Js.TypeError "value.replace is not a function")
    end
  else Ok None.

(** [function purgeMonth(month)]. [month.toLowerCase()] exists on strings
    only. *)
Definition purgeMonth_switch (month : string) : string :=
  if String.eqb month "set" then "sep"
  else if String.eqb month "setiembre" then "sep"
  else if String.eqb month "septiembre" then "sep"
  else if String.eqb month "agosto" then "ago"
  else month.

Definition purgeMonth (month : Value) : result string :=
  match month with
  | Str s => Ok (purgeMonth_switch (Js.trim (Js.toLowerCase s)))
  | _ => Throw (Js.TypeError "month.toLowerCase is not a function")
  end.

(** [function downloadFile(cb)], from the point where the response
    arrives. What the response stream then emits is a list of events;
    the three handlers are one step each. [buffers] and [fileSize] are
    the function's variables, [progressInterval] tells whether the timer
    started by [setInterval] is still set, and [calls] lists the calls of
    [cb], [Ok] for [cb(null, ..)] and [Throw] for [cb(err)]. The lines
    written to the console are left out. *)
Inductive ResponseEvent : Type :=
| OnData (chunk : list Byte.byte)
| OnError (err : Js.Exception)
| OnEnd.

Record Download : Type := {
  buffers : list (list Byte.byte);
  fileSize : nat;
  progressInterval : bool;
  calls : list (result (list Byte.byte))
}.

Definition response_arrived : Download :=
  {| buffers := []; fileSize := 0; progressInterval := true; calls := [] |}.

Definition on_event (st : Download) (ev : ResponseEvent) : Download :=
  match ev with
  | OnData chunk =>
      {| buffers := buffers st ++ [chunk];
         fileSize := fileSize st + length chunk;
         progressInterval := progressInterval st; calls := calls st |}
  | OnError err =>
      {| buffers := buffers st; fileSize := fileSize st;
         progressInterval := progressInterval st;
         calls := calls st ++ [Throw err] |}
  | OnEnd =>
      {| buffers := buffers st; fileSize := fileSize st;
         progressInterval := false;
         calls := calls st ++ [Ok (concat (buffers st))] |}
  end.

Definition downloadFile (events : list ResponseEvent) : Download :=
  foldl on_event response_arrived events.

(** The chunks of the data events, in the order of arrival. *)
Definition chunks_of (events : list ResponseEvent) : list (list Byte.byte) :=
  flat_map (fun ev => match ev with OnData chunk => [chunk] | _ => [] end) events.

Section WithConstants.

Variable now : Moment.Today.
Variable COL : Columns.
Variable CURR : Currencies.

(** [function getDate(day, month, year)]:
    [moment.utc(`${day}-${purgeMonth(month)}.-${year}`, 'D-MMM-YYYY')] *)
Definition getDate (day month year : Value) : result Moment.t :=
  purged ← purgeMonth month;
  mret (Moment.utc now
          (Js.to_string day ++ "-" ++ purged ++ ".-" ++ Js.to_string year)).

(** The object literal stored under the date: the eight cells go
    through [getValue] in the order of the source. *)
Definition currency (code : string) (line : list Value) (b s : nat)
  : result Currency :=
  vb ← getValue (Js.index line b);
  vs ← getValue (Js.index line s);
  mret {| iso := code; buy := vb; sell := vs |}.

Definition makeDay (date : Moment.t) (line : list Value) : result Day :=
  usd ← currency (USD CURR) line (USD_BUY COL) (USD_SELL COL);
  ars ← currency (ARS CURR) line (ARS_BUY COL) (ARS_SELL COL);
  brl ← currency (BRL CURR) line (BRL_BUY COL) (BRL_SELL COL);
  eur ← currency (EUR CURR) line (EUR_BUY COL) (EUR_SELL COL);
  mret {| date := Moment.toDate date; currencies := [usd; ars; brl; eur] |}.

(** The variables of [makeArrayOfDays] that live across iterations:
    [let year, month] start out [undefined], [days] starts out [{}]. *)
Record Loop : Type := {
  year : Value;
  month : Value;
  days : gmap string Day
}.

Definition start : Loop :=
  {| year := Undefined; month := Undefined; days := ∅ |}.

(** One turn of [for (let i = 0; i < lines.length; i++)]. *)
Definition iteration (lastDate : option Z) (st : Loop) (line : list Value)
  : result Loop :=
  let day := Js.index line (DAY COL) in
  let month := Js.or (Js.index line (MONTH COL)) (month st) in
  let year := Js.or (Js.index line (YEAR COL)) (year st) in
  date ← getDate day month year;
  if Moment.isSameOrBefore date lastDate
  then mret {| year := year; month := month; days := days st |}
  else
    d ← makeDay date line;
    mret {| year := year; month := month;
            days := <[Moment.format_L date := d]> (days st) |}.

Fixpoint loop (lastDate : option Z) (st : Loop) (lines : list (list Value))
  : result Loop :=
  match lines with
  | [] => mret st
  | line :: rest => st' ← iteration lastDate st line; loop lastDate st' rest
  end.

(** [function makeArrayOfDays({ lastDate, lines }, cb)]: [Ok days] is
    [cb(null, days)]. *)
Definition makeArrayOfDays (lastDate : option Z) (lines : list (list Value))
  : result (gmap string Day) :=
  st ← loop lastDate start lines; mret (days st).

(** Names for what an iteration works with. [carry] is the pair of
    the assignments [month = line[COL.MONTH] || month] and
    [year = line[COL.YEAR] || year]; [context_at lines i] is the month
    and the year in the iteration of line [i], and [resolve lines i]
    the call of [getDate] in that iteration. *)
Definition carry (ctx : Value * Value) (line : list Value) : Value * Value :=
  (Js.or (Js.index line (MONTH COL)) ctx.1,
   Js.or (Js.index line (YEAR COL)) ctx.2).

Definition context_at (lines : list (list Value)) (i : nat) : Value * Value :=
  foldl carry (Undefined, Undefined) (take (S i) lines).

Definition resolve (lines : list (list Value)) (i : nat) : result Moment.t :=
  getDate (Js.index (nth i lines []) (DAY COL))
    (context_at lines i).1 (context_at lines i).2.

(** Iteration [j] puts [day] under [key]: the line resolves to a date
    that is not same-or-before [lastDate], [key] is that date
    formatted, and [day] is the object built from the line. *)
Definition stores (lastDate : option Z) (lines : list (list Value))
  (j : nat) (key : string) (day : Day) : Prop :=
  exists line d,
    lines !! j = Some line /\ resolve lines j = Ok d /\
    Moment.isSameOrBefore d lastDate = false /\
    Moment.format_L d = key /\ makeDay d line = Ok day.

(** [j] is the last iteration that puts something under [key]. *)
Definition last_stores (lastDate : option Z) (lines : list (list Value))
  (key : string) (day : Day) : Prop :=
  exists j, stores lastDate lines j key day /\
            forall k day', (j < k)%nat -> ~ stores lastDate lines k key day'.

(** The columns [getValue] is applied to. *)
Definition quote_columns : list nat :=
  [USD_BUY COL; USD_SELL COL; ARS_BUY COL; ARS_SELL COL;
   BRL_BUY COL; BRL_SELL COL; EUR_BUY COL; EUR_SELL COL].

(** A sheet of the kind [purgeMonth] and [getValue] are documented for:
    the month and quote columns hold text or nothing, and the first
    line names a month. *)
Definition text_sheet (lines : list (list Value)) : Prop :=
  (forall line, line ∈ lines ->
     Js.not_a_number (Js.index line (MONTH COL)) /\
     forall c, c ∈ quote_columns -> Js.not_a_number (Js.index line c)) /\
  (forall line, lines !! 0%nat = Some line ->
     Js.truthy (Js.index line (MONTH COL)) = true).

(** The columns an iteration of [makeArrayOfDays] reads. *)
Definition read_columns : list nat :=
  [DAY COL; MONTH COL; YEAR COL] ++ quote_columns.

(** The filter of [readFile]: [INT_REGEX.test(line[0])]. *)
Definition usefulLines (lines : list (list Value)) : list (list Value) :=
  List.filter (fun line => RegExp.test INT_REGEX (Js.index line 0)) lines.

(** [function seed()], from the point where the sheet is decoded.

    [db.connect], [downloadFile] and the decoding of the sheet are left
    out: [rows] is what [xlsx.utils.sheet_to_json] returns. The steps
    are [readFile] and [getLastDate], then [makeArrayOfDays], then
    [insertDays], which is handed the very object [makeArrayOfDays]
    passes to its callback. An exception, whether handed to the final
    callback or left uncaught, ends the process with a failure. *)
Definition seed (rows : list (list Value)) (db : CurrencyDay.Db)
  : result Z * CurrencyDay.Db :=
  match CurrencyDay.getLastDate db with
  | Throw e => (Throw e, db)
  | Ok lastDate =>
      match makeArrayOfDays lastDate (usefulLines rows) with
      | Throw e => (Throw e, db)
      | Ok days => CurrencyDay.insertDays (CurrencyDay.ObjectOfDays days) db
      end
  end.

End WithConstants.

End Seed.

Import Seed.

(** ** A sample sheet *)

Module Sample.

(** The 15th of September 2020, UTC. *)
Definition today : Moment.Today :=
  {| Moment.now_year := 2020; Moment.now_month := 8; Moment.now_date := 15 |}.

(** A layout with the day, the month and the year in front, followed by
    buy and sell of the four currencies. *)
Definition columns : Columns :=
  {| DAY := 0; MONTH := 1; YEAR := 2; USD_BUY := 3; USD_SELL := 4;
     ARS_BUY := 5; ARS_SELL := 6; BRL_BUY := 7; BRL_SELL := 8;
     EUR_BUY := 9; EUR_SELL := 10 |}.

Definition codes : Currencies :=
  {| USD := "USD"; ARS := "ARS"; BRL := "BRL"; EUR := "EUR" |}.

Definition aug1 : list Value :=
  [Number "1"; Str "ago"; Number "2020"; Str "70,5"; Str "71,0"].
Definition aug2 : list Value :=
  [Number "2"; Undefined; Undefined; Str "70,7"; Str "71,2"].
Definition aug2_again : list Value :=
  [Number "2"; Undefined; Undefined; Str "70,9"; Str "71,9"].
Definition mar1 : list Value :=
  [Number "1"; Str "mar"; Undefined; Str "1,7"; Str "1,8"].

(** Midnight UTC of the first and of the second of August 2020. *)
Definition t_aug1 : Z := 1596240000000.
Definition t_aug2 : Z := 1596326400000.

Definition quotes (usd_buy usd_sell : string) : list Currency :=
  [ {| iso := "USD"; buy := Some usd_buy; sell := Some usd_sell |};
    {| iso := "ARS"; buy := None; sell := None |};
    {| iso := "BRL"; buy := None; sell := None |};
    {| iso := "EUR"; buy := None; sell := None |} ].

Definition day_aug2 : Day := {| date := Some t_aug2; currencies := quotes "70.7" "71.2" |}.
Definition day_aug2_again : Day :=
  {| date := Some t_aug2; currencies := quotes "70.9" "71.9" |}.

(** What [makeArrayOfDays] returns, [{}] if it throws. *)
Definition days_of (lastDate : option Z) (lines : list (list Value))
  : gmap string Day :=
  match makeArrayOfDays today columns codes lastDate lines with
  | Ok ds => ds
  | Throw _ => ∅
  end.

Definition empty_db : CurrencyDay.Db :=
  {| CurrencyDay.currencyDay := []; CurrencyDay.failure := None;
     CurrencyDay.writes := [] |}.

(** A store that already holds the second of August. *)
Definition stored_db : CurrencyDay.Db :=
  {| CurrencyDay.currencyDay := CurrencyDay.inserts_of [day_aug2];
     CurrencyDay.failure := None; CurrencyDay.writes := [] |}.

(** The first of August, and the line of March when no line above it
    has a year. *)
Definition day_aug1 : Day := {| date := Some t_aug1; currencies := quotes "70.5" "71.0" |}.


End Sample.

(** ** Notions for the statements *)

(** A day dated after [D], or not dated at all (an invalid [Date]). *)
Definition after (D : Z) (day : Day) : bool :=
  match date day with
  | Some t => D <? t
  | None => true
  end.

(** An exception that is a [TypeError]. *)
Definition type_error (e : Js.Exception) : Prop := exists what, e = Js.TypeError what.

(** [a] or [b], whichever is the later date; [None] is no date. *)
Definition later (a b : option Z) : option Z :=
  match a, b with
  | Some x, Some y => Some (Z.max x y)
  | Some x, None => Some x
  | None, _ => b
  end.

(** ** The wording of the specification *)

(** The specification's wording of a valid quote, to compare with
    [FLOAT_REGEX]: "one or more digits, optionally followed by a decimal
    separator (comma or dot) and one or more digits". *)
Definition one_or_more_digits (w : list ascii) : Prop :=
  w <> [] /\ Forall (fun c => RegExp.is_digit c = true) w.

Definition valid_quote (s : string) : Prop :=
  let w := list_ascii_of_string s in
  one_or_more_digits w \/
  exists (a : list ascii) (sep : ascii) (b : list ascii),
    w = (a ++ sep :: b)%list /\ one_or_more_digits a /\
    (sep = ","%char \/ sep = "."%char) /\ one_or_more_digits b.

(** The decimal a string in the notation [digits] or [digits.digits]
    denotes, as the store reads the strings it is sent:
    [unscaled] divided by ten to the [scale]. *)
Record Decimal : Type := { unscaled : N; scale : nat }.

Fixpoint read_digits (acc : N) (w : list ascii) : option N :=
  match w with
  | [] => Some acc
  | c :: w' =>
      if RegExp.is_digit c then read_digits (10 * acc + (Js.code c - 48))%N w'
      else None
  end.

Fixpoint read_decimal (acc : N) (w : list ascii) : option Decimal :=
  match w with
  | [] => Some {| unscaled := acc; scale := 0 |}
  | c :: w' =>
      if RegExp.is_digit c then read_decimal (10 * acc + (Js.code c - 48))%N w'
      else if Ascii.eqb c "." then
        match w' with
        | [] => None
        | _ => u ← read_digits acc w'; Some {| unscaled := u; scale := length w' |}
        end
      else None
  end.

Definition decimal (s : string) : option Decimal :=
  match list_ascii_of_string s with
  | [] => None
  | c :: w => if RegExp.is_digit c then read_decimal 0 (c :: w) else None
  end.

(** ** Tactics *)

(** Case analysis on the twelve months, closed by [lia] over
    hypotheses that tabulate them. *)
Ltac month_index :=
  repeat match goal with
  | H : context [Z.of_nat ?n] |- _ =>
      let v := eval vm_compute in (Z.of_nat n) in
      change (Z.of_nat n) with v in H
  end.

Ltac month_cases k :=
  do 12 (destruct k as [|k]; [month_index; lia|]); lia.

(** * Properties *)

(** ** Strings *)

Module JsFacts.
Import Js.

Lemma lower_char_idem c : lower_char (lower_char c) = lower_char c.
Proof. destruct c as [[] [] [] [] [] [] [] []]; reflexivity. Qed.

Lemma is_space_lower_char c : is_space (lower_char c) = is_space c.
Proof. destruct c as [[] [] [] [] [] [] [] []]; reflexivity. Qed.

Lemma toLowerCase_idem s : toLowerCase (toLowerCase s) = toLowerCase s.
Proof. induction s as [|c s IH]; simpl; [done|]. by rewrite lower_char_idem, IH. Qed.

Lemma toLowerCase_trimStart s :
  toLowerCase (trimStart s) = trimStart (toLowerCase s).
Proof.
  induction s as [|c s IH]; simpl; [done|].
  rewrite is_space_lower_char. by destruct (is_space c).
Qed.

Lemma toLowerCase_trimEnd s : toLowerCase (trimEnd s) = trimEnd (toLowerCase s).
Proof.
  induction s as [|c s IH]; simpl; [done|].
  rewrite <- IH, is_space_lower_char.
  destruct (trimEnd s); simpl; [by destruct (is_space c)|done].
Qed.

Lemma toLowerCase_trim s : toLowerCase (trim s) = trim (toLowerCase s).
Proof. unfold trim. by rewrite toLowerCase_trimEnd, toLowerCase_trimStart. Qed.

Lemma trimStart_clean s : clean_start (trimStart s).
Proof.
  induction s as [|c s IH]; simpl; [done|].
  destruct (is_space c) eqn:E; [done|]. exact E.
Qed.

Lemma trimStart_id s : clean_start s -> trimStart s = s.
Proof. destruct s; simpl; [done|]. by intros ->. Qed.

Lemma trimEnd_clean s : clean_start s -> clean_start (trimEnd s).
Proof.
  destruct s as [|c s]; simpl; [done|]. intros E.
  destruct (trimEnd s); simpl; [by rewrite E|done].
Qed.

Lemma trimEnd_idem s : trimEnd (trimEnd s) = trimEnd s.
Proof.
  induction s as [|c s IH]; simpl; [done|].
  destruct (trimEnd s) as [|c' t] eqn:E.
  - destruct (is_space c) eqn:Ec; simpl; [done|]. by rewrite Ec.
  - change (trimEnd (String c (String c' t))) with
      (match trimEnd (String c' t) with
       | EmptyString => if is_space c then EmptyString else String c EmptyString
       | u => String c u
       end).
    by rewrite IH.
Qed.

Lemma trim_idem s : trim (trim s) = trim s.
Proof.
  unfold trim.
  rewrite (trimStart_id (trimEnd (trimStart s)))
    by apply trimEnd_clean, trimStart_clean.
  apply trimEnd_idem.
Qed.

End JsFacts.

(** ** Month names *)




(** ** Regular expressions: the matcher decides the language *)

Module RegExpFacts.
Import RegExp.

Lemma lang_eps_inv w : lang Eps w -> w = [].
Proof. by inversion 1. Qed.

Lemma lang_class_inv p w : lang (Class p) w -> exists c, w = [c] /\ p c = true.
Proof. inversion 1; subst; eauto. Qed.

Lemma lang_seq_inv r1 r2 w :
  lang (Seq r1 r2) w ->
  exists w1 w2, w = (w1 ++ w2)%list /\ lang r1 w1 /\ lang r2 w2.
Proof. inversion 1; subst; eauto. Qed.

Lemma lang_alt_inv r1 r2 w : lang (Alt r1 r2) w -> lang r1 w \/ lang r2 w.
Proof. inversion 1; subst; auto. Qed.

Lemma nullable_spec r : nullable r = true <-> lang r [].
Proof.
  induction r as [| |p|r1 IH1 r2 IH2|r1 IH1 r2 IH2|r IH]; simpl.
  - split; [done|inversion 1].
  - split; [constructor|done].
  - split; [done|]. intros (c & ? & _)%lang_class_inv. done.
  - rewrite andb_true_iff, IH1, IH2. split.
    + intros [H1 H2]. apply (lang_seq _ _ [] []); done.
    + intros (w1 & w2 & E & H1 & H2)%lang_seq_inv.
      symmetry in E. apply app_eq_nil in E as [-> ->]. done.
  - rewrite orb_true_iff, IH1, IH2. split.
    + intros [H|H]; [by apply lang_alt_l|by apply lang_alt_r].
    + apply lang_alt_inv.
  - split; [constructor|done].
Qed.

(** A non-empty word of [r*] starts with a non-empty word of [r]. *)
Lemma lang_star_cons_inv r c w :
  lang (Star r) (c :: w) ->
  exists w1 w2, w = (w1 ++ w2)%list /\ lang r (c :: w1) /\ lang (Star r) w2.
Proof.
  intros H. remember (Star r) as r' eqn:Er. remember (c :: w) as cw eqn:Ew.
  revert w Ew.
  induction H as [| | | | | |r0 w1 w2 H1 _ H2 IH2]; intros u Eu; try discriminate.
  injection Er as ->.
  destruct w1 as [|c1 w1]; simpl in Eu.
  - by apply IH2.
  - injection Eu as -> <-. eauto.
Qed.

Lemma deriv_spec r c w : lang (deriv c r) w <-> lang r (c :: w).
Proof.
  revert w.
  induction r as [| |p|r1 IH1 r2 IH2|r1 IH1 r2 IH2|r IH]; intros w; simpl.
  - split; inversion 1.
  - split; inversion 1.
  - destruct (p c) eqn:Hp; split.
    + intros ->%lang_eps_inv. by constructor.
    + intros (c' & [= <- ->] & _)%lang_class_inv. constructor.
    + inversion 1.
    + intros (c' & [= <- ->] & ?)%lang_class_inv. congruence.
  - assert (Hseq : lang (Seq (deriv c r1) r2) w -> lang (Seq r1 r2) (c :: w)).
    { intros (w1 & w2 & -> & H1 & H2)%lang_seq_inv.
      apply IH1 in H1. by apply (lang_seq _ _ (c :: w1) w2). }
    assert (Hinv : lang (Seq r1 r2) (c :: w) ->
                   lang (Seq (deriv c r1) r2) w \/
                   (lang r1 [] /\ lang r2 (c :: w))).
    { intros (w1 & w2 & E & H1 & H2)%lang_seq_inv.
      destruct w1 as [|c1 w1]; simpl in E.
      - right. subst. done.
      - injection E as <- ->. left. constructor; [by apply IH1|done]. }
    destruct (nullable r1) eqn:Hn; split.
    + intros [H|H]%lang_alt_inv; [by apply Hseq|].
      apply (lang_seq _ _ [] (c :: w)); [by apply nullable_spec|by apply IH2].
    + intros [H|[_ H]]%Hinv; [by apply lang_alt_l|by apply lang_alt_r, IH2].
    + apply Hseq.
    + intros [H|[H _]]%Hinv; [done|].
      apply nullable_spec in H. congruence.
  - split.
    + intros [H|H]%lang_alt_inv; [apply lang_alt_l, IH1|apply lang_alt_r, IH2]; done.
    + intros [H|H]%lang_alt_inv; [apply lang_alt_l, IH1|apply lang_alt_r, IH2]; done.
  - split.
    + intros (w1 & w2 & -> & H1 & H2)%lang_seq_inv.
      apply IH in H1. by apply (lang_star_cons _ (c :: w1) w2).
    + intros (w1 & w2 & -> & H1 & H2)%lang_star_cons_inv.
      constructor; [by apply IH|done].
Qed.

Theorem matches_spec r w : matches r w = true <-> lang r w.
Proof.
  revert r. induction w as [|c w IH]; intros r; simpl.
  - apply nullable_spec.
  - rewrite IH. apply deriv_spec.
Qed.

(** The languages of the pieces of [FLOAT_REGEX]. *)

Lemma lang_star_digit w :
  lang (Star digit) w <-> Forall (fun c => is_digit c = true) w.
Proof.
  split.
  - intros H. remember (Star digit) as r eqn:Er.
    induction H as [| | | | | |r0 w1 w2 H1 _ H2 IH2]; try discriminate.
    + constructor.
    + injection Er as ->. apply lang_class_inv in H1 as (c & -> & Hc).
      constructor; auto.
  - induction 1 as [|c w Hc _ IH]; [constructor|].
    apply (lang_star_cons _ [c] w); [by constructor|done].
Qed.

Lemma lang_plus_digit w : lang (Plus digit) w <-> one_or_more_digits w.
Proof.
  unfold Plus, one_or_more_digits. split.
  - intros (w1 & w2 & -> & H1 & H2)%lang_seq_inv.
    apply lang_class_inv in H1 as (c & -> & Hc).
    apply lang_star_digit in H2. split; [done|]. by constructor.
  - intros [Hne Hall]. destruct Hall as [|c w' Hc Hall]; [done|].
    apply (lang_seq _ _ [c] w'); [by constructor|by apply lang_star_digit].
Qed.

Lemma lang_FLOAT_REGEX w :
  lang FLOAT_REGEX w <->
  one_or_more_digits w \/
  exists (a : list ascii) (sep : ascii) (b : list ascii),
    w = (a ++ sep :: b)%list /\ one_or_more_digits a /\
    (sep = ","%char \/ sep = "."%char) /\ one_or_more_digits b.
Proof.
  unfold FLOAT_REGEX, Opt. split.
  - intros (w1 & w2 & -> & H1 & H2)%lang_seq_inv.
    apply lang_plus_digit in H1.
    apply lang_alt_inv in H2 as [H3| ->%lang_eps_inv].
    + apply lang_seq_inv in H3 as (w3 & w4 & -> & H4 & H5).
      apply lang_class_inv in H4 as (c & -> & Hc).
      apply lang_plus_digit in H5. right. exists w1, c, w4.
      split; [done|]. split; [done|]. split; [|done].
      unfold is_separator in Hc. apply orb_true_iff in Hc.
      destruct Hc as [Hc|Hc]; apply Ascii.eqb_eq in Hc; auto.
    + left. by rewrite app_nil_r.
  - intros [H|(a & sep & b & -> & Ha & Hsep & Hb)].
    + rewrite <- (app_nil_r w). constructor; [by apply lang_plus_digit|].
      apply lang_alt_r. constructor.
    + constructor; [by apply lang_plus_digit|]. apply lang_alt_l.
      apply (lang_seq _ _ [sep] b); [|by apply lang_plus_digit].
      constructor. unfold is_separator. by destruct Hsep as [-> | ->].
Qed.

End RegExpFacts.

(** [FLOAT_REGEX.test] on a string is the specification's valid quote. *)
Lemma FLOAT_REGEX_valid_quote (s : string) :
RegExp.test FLOAT_REGEX (Str s) = true <-> valid_quote s.
Proof.
unfold RegExp.test, valid_quote. simpl.
rewrite RegExpFacts.matches_spec. apply RegExpFacts.lang_FLOAT_REGEX.
Qed.

(** ** Quotes *)

Lemma digit_not_comma c : RegExp.is_digit c = true -> Ascii.eqb c "," = false.
Proof. destruct c as [[] [] [] [] [] [] [] []]; done. Qed.

Lemma digit_not_dot c : RegExp.is_digit c = true -> Ascii.eqb c "." = false.
Proof. destruct c as [[] [] [] [] [] [] [] []]; done. Qed.

Lemma replace_digits (s : string) :
Forall (fun c => RegExp.is_digit c = true) (list_ascii_of_string s) ->
Js.replace "," "." s = s.
Proof.
induction s as [|c s IH]; simpl; [done|].
intros [Hc Hs]%Forall_cons. rewrite (digit_not_comma c Hc). by rewrite IH.
Qed.

Lemma replace_separator (a : list ascii) : forall (s : string) sep b,
list_ascii_of_string s = (a ++ sep :: b)%list ->
Forall (fun c => RegExp.is_digit c = true) a ->
sep = ","%char \/ sep = "."%char ->
Forall (fun c => RegExp.is_digit c = true) b ->
list_ascii_of_string (Js.replace "," "." s) = (a ++ "."%char :: b)%list.
Proof.
induction a as [|c a IH]; intros [|x s] sep b E Ha Hsep Hb;
  simpl in E; try discriminate; injection E as -> E.
- destruct Hsep as [-> | ->]; simpl; [by rewrite E|].
  f_equal. rewrite replace_digits; [done|]. by rewrite E.
- apply Forall_cons in Ha as [Hc Ha]. simpl. rewrite (digit_not_comma _ Hc).
  simpl. f_equal. by apply (IH s sep b).
Qed.

Lemma read_digits_some w :
Forall (fun c => RegExp.is_digit c = true) w ->
forall acc, exists n, read_digits acc w = Some n.
Proof.
induction 1 as [|c w Hc _ IH]; intros acc; simpl; [eauto|].
rewrite Hc. apply IH.
Qed.

Lemma read_decimal_digits w :
Forall (fun c => RegExp.is_digit c = true) w ->
forall acc, exists d, read_decimal acc w = Some d.
Proof.
induction 1 as [|c w Hc _ IH]; intros acc; simpl; [eauto|].
rewrite Hc. apply IH.
Qed.

Lemma read_decimal_point a b :
Forall (fun c => RegExp.is_digit c = true) a ->
one_or_more_digits b ->
forall acc, exists d, read_decimal acc (a ++ "."%char :: b) = Some d.
Proof.
intros Ha [Hne Hb]. induction Ha as [|c a Hc _ IH]; intros acc; simpl.
- destruct b as [|c b]; [done|].
  destruct (read_digits_some (c :: b) Hb acc) as [n Hn].
  rewrite Hn. simpl. eauto.
- rewrite Hc. apply IH.
Qed.

(** What [getValue] returns on a valid quote reads as a decimal. *)
Lemma decimal_of_valid_quote (s : string) :
valid_quote s -> exists d, decimal (Js.replace "," "." s) = Some d.
Proof.
unfold valid_quote, decimal.
intros [[Hne Hall]|(a & sep & b & E & [Hne Ha] & Hsep & Hb)].
- rewrite replace_digits by done.
  destruct (list_ascii_of_string s) as [|c w]; [done|].
  apply Forall_cons in Hall as Hc. destruct Hc as [Hc _]. rewrite Hc.
  by apply read_decimal_digits.
- rewrite (replace_separator a s sep b) by (done || apply Hb).
  destruct a as [|c a]; [done|]. simpl.
  apply Forall_cons in Ha as [Hc Ha]. rewrite Hc.
  apply (read_decimal_point a b Ha Hb).
Qed.

Lemma getValue_Str (s : string) :
getValue (Str s) =
if RegExp.test FLOAT_REGEX (Str s) then Ok (Some (Js.replace "," "." s))
else Ok None.
Proof. reflexivity. Qed.

(** C3, as stated, fails on a numeric cell: the number 12.5 is rendered
  "12.5" by [test] and matches, but a number has no [replace]. *)
Lemma getValue_number_throws :
RegExp.test FLOAT_REGEX (Number "12.5") = true /\
getValue (Number "12.5") = Throw (Js.TypeError "value.replace is not a function").
Proof. split; reflexivity. Qed.

(** C3 (amended). For every text cell, [getValue] yields the decimal
  notation of the cell, its comma turned into a dot, exactly when the
  cell is a valid quote, and [null] otherwise; a blank cell yields
  [null] too; nothing is thrown and [null] is not a zero. *)
Theorem getValue_text_cells :
(forall s : string,
    (valid_quote s /\
     getValue (Str s) = Ok (Some (Js.replace "," "." s)) /\
     exists d, decimal (Js.replace "," "." s) = Some d)
    \/ (~ valid_quote s /\ getValue (Str s) = Ok None)) /\
getValue Undefined = Ok None /\
(getValue (Str "1,2345") = Ok (Some "1.2345") /\
 decimal "1.2345" = Some {| unscaled := 12345; scale := 4 |}) /\
(getValue (Str "12.5") = Ok (Some "12.5") /\
 decimal "12.5" = Some {| unscaled := 125; scale := 1 |}) /\
getValue (Str "") = Ok None /\
getValue (Str "abc") = Ok None.
Proof.
split; [|repeat split; reflexivity].
intros s. rewrite getValue_Str.
destruct (RegExp.test FLOAT_REGEX (Str s)) eqn:E.
- apply FLOAT_REGEX_valid_quote in E. left.
  split; [done|]. split; [done|]. by apply decimal_of_valid_quote.
- right. split; [|done]. intros H%FLOAT_REGEX_valid_quote. congruence.
Qed.

(** ** Calendar and moments *)

Module MomentFacts.
Import Moment.

Lemma daysInMonth_le_31 y mo : 0 <= mo <= 11 -> 28 <= daysInMonth y mo <= 31.
Proof.
  intros Hmo. unfold daysInMonth.
  destruct (mo =? 1); [destruct (isLeapYear y); lia|].
  pose proof (Z.mod_pos_bound (mo mod 7) 2). lia.
Qed.

Lemma is_digit_code c : RegExp.is_digit c = true -> 48 <= Z.of_N (Js.code c) <= 57.
Proof.
  unfold RegExp.is_digit. intros [H1 H2]%andb_true_iff.
  apply N.leb_le in H1, H2. lia.
Qed.

Lemma take_digits_digits max : forall s run rest,
  take_digits max s = (run, rest) ->
  Forall (fun c => RegExp.is_digit c = true) (list_ascii_of_string run).
Proof.
  induction max as [|k IH]; intros [|c s] run rest E; simpl in E;
    try (injection E as <- <-; constructor).
  destruct (RegExp.is_digit c) eqn:Hc.
  - destruct (take_digits k s) as [run' rest'] eqn:E'.
    injection E as <- <-. simpl. constructor; [done|]. by eapply IH.
  - injection E as <- <-. constructor.
Qed.

Lemma find_digits_digits max s run rest :
  find_digits max s = Some (run, rest) ->
  Forall (fun c => RegExp.is_digit c = true) (list_ascii_of_string run).
Proof.
  induction s as [|c s IH]; simpl; [done|].
  destruct (RegExp.is_digit c); [|done].
  intros [= E]. by eapply take_digits_digits.
Qed.

Lemma toInt_from_nonneg s : forall acc,
  Forall (fun c => RegExp.is_digit c = true) (list_ascii_of_string s) ->
  0 <= acc -> 0 <= toInt_from acc s.
Proof.
  induction s as [|c s IH]; intros acc; simpl; [done|].
  intros [Hc Hs]%Forall_cons Hacc. apply IH; [done|].
  apply is_digit_code in Hc. lia.
Qed.

Lemma parse_year_nonneg s :
  Forall (fun c => RegExp.is_digit c = true) (list_ascii_of_string s) ->
  0 <= parse_year s.
Proof.
  intros Hs. pose proof (toInt_from_nonneg s 0 Hs). unfold parse_year, toInt.
  destruct (String.length s =? 2)%nat; [|lia].
  destruct (68 <? toInt_from 0 s); lia.
Qed.

Lemma scan_year_nonneg input day monthName y :
  scan input = (day, monthName, Some y) -> 0 <= y.
Proof.
  unfold scan.
  destruct (find_digits 2 input) as [[run rest]|];
    destruct (exec_alternatives alternatives _) as [rest'|];
    match goal with
    | |- context [find_digits 4 ?s] =>
        destruct (find_digits 4 s) as [[yrun yrest]|] eqn:Ey
    end; simpl; intros [= _ _ <-];
    by apply find_digits_digits, parse_year_nonneg in Ey.
Qed.

Lemma utc_calendar now input : calendar (utc now input).
Proof.
  unfold utc. destruct (scan input) as [[day monthName] year] eqn:Es.
  destruct (configFromArray now year _ day) as [[y mo] d] eqn:Ec.
  destruct (_ || _ || overflow y mo d) eqn:E; [done|].
  apply orb_false_iff in E as [_ Eo]. unfold overflow in Eo.
  repeat (apply orb_false_iff in Eo as [Eo ?]).
  simpl. replace (mo + 1 - 1) with mo by lia.
  split; [|lia].
  unfold configFromArray in Ec.
  destruct year as [y'|].
  - injection Ec as <- _ _. by eapply scan_year_nonneg.
  - destruct (monthName ≫= first_month monthsParse 0), day;
      injection Ec as <- _ _; lia.
Qed.

(** *** [format('L')] tells the days apart *)

Lemma read_zeroFill (n : N) (k : nat) :
  N.of_uint <$> NilEmpty.uint_of_string (zeros k ++ digits_of n) = Some n.
Proof.
  induction k as [|k IH]; simpl.
  - unfold digits_of. change (String.append "" ?s) with s.
    rewrite NilEmpty.usu. simpl. f_equal. apply DecimalN.Unsigned.of_to.
  - change (String.append (String "0" ?a) ?b) with (String "0" (String.append a b)).
    simpl. destruct (NilEmpty.uint_of_string (zeros k ++ digits_of n)); [|done].
    simpl in *. done.
Qed.

Lemma zeroFill_inj a b k :
  0 <= a -> 0 <= b -> zeroFill a k = zeroFill b k -> a = b.
Proof.
  unfold zeroFill. intros Ha Hb.
  destruct (Z.leb_spec 0 a); [|lia]. destruct (Z.leb_spec 0 b); [|lia].
  intros E. apply (f_equal (fun s => N.of_uint <$> NilEmpty.uint_of_string s)) in E.
  rewrite !read_zeroFill in E. injection E as E.
  apply (f_equal Z.of_N) in E. rewrite !N2Z.inj_abs_N in E. lia.
Qed.

Lemma zeroFill_2_length d : 0 <= d < 100 -> String.length (zeroFill d 2) = 2%nat.
Proof.
  intros Hd.
  assert (H : forallb (fun n => String.length (zeroFill (Z.of_nat n) 2) =? 2)%nat
                (seq 0 100) = true) by (vm_compute; reflexivity).
  rewrite forallb_forall in H. specialize (H (Z.to_nat d)).
  rewrite Z2Nat.id in H by lia. apply Nat.eqb_eq, H, in_seq. lia.
Qed.

Lemma append_inj_length (a a' b b' : string) :
  String.length a = String.length a' -> a ++ b = a' ++ b' -> a = a' /\ b = b'.
Proof.
  revert a'. induction a as [|c a IH]; intros [|c' a']; simpl; try done.
  intros [= Hlen]. cbn. intros [= -> E]. apply IH in E as [-> ->]; done.
Qed.

Lemma format_L_inj m1 m2 :
  calendar m1 -> calendar m2 -> format_L m1 = format_L m2 -> m1 = m2.
Proof.
  assert (Hinv : forall y mo d, calendar (UtcDay y mo d) ->
                   format_L (UtcDay y mo d) <> "Invalid date").
  { intros y mo d (Hy & Hmo & Hd) E. unfold format_L in E.
    pose proof (daysInMonth_le_31 y (mo - 1)).
    pose proof (zeroFill_2_length d) as Hl.
    destruct (zeroFill d 2) as [|c1 [|c2 [|]]]; simpl in Hl; try lia.
    change (String c1 (String c2 "") ++ ?s) with (String c1 (String c2 s)) in E.
    change ("/" ++ ?s) with (String "/" s) in E.
    injection E as _ _ E. discriminate. }
  destruct m1 as [|y1 mo1 d1], m2 as [|y2 mo2 d2]; intros H1 H2 E; try done.
  - symmetry in E. by apply Hinv in E.
  - by apply Hinv in E.
  - destruct H1 as (Hy1 & Hmo1 & Hd1), H2 as (Hy2 & Hmo2 & Hd2).
    pose proof (daysInMonth_le_31 y1 (mo1 - 1)).
    pose proof (daysInMonth_le_31 y2 (mo2 - 1)).
    unfold format_L in E.
    assert (Hl : forall a b, 0 <= a < 100 -> 0 <= b < 100 ->
              String.length (zeroFill a 2) = String.length (zeroFill b 2)).
    { intros a b Ha Hb. by rewrite !zeroFill_2_length. }
    apply append_inj_length in E as [Ed E]; [|apply Hl; lia].
    change ("/" ++ ?s) with (String "/" s) in E. injection E as E.
    apply append_inj_length in E as [Em E]; [|apply Hl; lia].
    change ("/" ++ ?s) with (String "/" s) in E. injection E as E.
    apply zeroFill_inj in Ed, Em, E; try lia. by subst.
Qed.

(** *** [valueOf] tells the days apart *)

Lemma DayFromYear_succ y : DayFromYear (y + 1) = DayFromYear y + 365 + leap_day y.
Proof.
  unfold DayFromYear, leap_day, isLeapYear.
  destruct (Z.eqb_spec (y mod 4) 0), (Z.eqb_spec (y mod 100) 0),
    (Z.eqb_spec (y mod 400) 0); simpl;
    Z.to_euclidean_division_equations; lia.
Qed.

Lemma DayFromYear_mono y y' : y <= y' -> DayFromYear y <= DayFromYear y'.
Proof.
  unfold DayFromYear. intros H. Z.to_euclidean_division_equations. lia.
Qed.

Lemma leap_day_cases y : leap_day y = 0 \/ leap_day y = 1.
Proof. unfold leap_day. destruct (isLeapYear y); auto. Qed.

(** The length of each month and the days of the year before it. *)
Lemma month_tables y :
  (daysInMonth y 0 = 31 /\ daysBefore y 0 = 0) /\
  (daysInMonth y 1 = 28 + leap_day y /\ daysBefore y 1 = 31) /\
  (daysInMonth y 2 = 31 /\ daysBefore y 2 = 59 + leap_day y) /\
  (daysInMonth y 3 = 30 /\ daysBefore y 3 = 90 + leap_day y) /\
  (daysInMonth y 4 = 31 /\ daysBefore y 4 = 120 + leap_day y) /\
  (daysInMonth y 5 = 30 /\ daysBefore y 5 = 151 + leap_day y) /\
  (daysInMonth y 6 = 31 /\ daysBefore y 6 = 181 + leap_day y) /\
  (daysInMonth y 7 = 31 /\ daysBefore y 7 = 212 + leap_day y) /\
  (daysInMonth y 8 = 30 /\ daysBefore y 8 = 243 + leap_day y) /\
  (daysInMonth y 9 = 31 /\ daysBefore y 9 = 273 + leap_day y) /\
  (daysInMonth y 10 = 30 /\ daysBefore y 10 = 304 + leap_day y) /\
  (daysInMonth y 11 = 31 /\ daysBefore y 11 = 334 + leap_day y).
Proof.
  unfold daysBefore, daysInMonth, leap_day.
  destruct (isLeapYear y); vm_compute; repeat split.
Qed.

Lemma day_of_year_bounds y mo d :
  1 <= mo <= 12 -> 1 <= d <= daysInMonth y (mo - 1) ->
  0 <= daysBefore y (Z.to_nat (mo - 1)) + (d - 1) < 365 + leap_day y.
Proof.
  intros Hmo Hd. remember (Z.to_nat (mo - 1)) as k eqn:Ek.
  assert (E : mo - 1 = Z.of_nat k) by lia. rewrite E in Hd.
  assert (Hk : (k < 12)%nat) by lia. clear Ek E Hmo.
  pose proof (month_tables y) as T. pose proof (leap_day_cases y).
  repeat destruct T as [[? ?] T]. destruct T as [? ?].
  month_cases k.
Qed.

Lemma day_of_year_inj y mo d mo' d' :
  1 <= mo <= 12 -> 1 <= d <= daysInMonth y (mo - 1) ->
  1 <= mo' <= 12 -> 1 <= d' <= daysInMonth y (mo' - 1) ->
  daysBefore y (Z.to_nat (mo - 1)) + d = daysBefore y (Z.to_nat (mo' - 1)) + d' ->
  mo = mo' /\ d = d'.
Proof.
  intros Hmo Hd Hmo' Hd'.
  remember (Z.to_nat (mo - 1)) as k eqn:Ek.
  remember (Z.to_nat (mo' - 1)) as k' eqn:Ek'.
  assert (E : mo = Z.of_nat k + 1) by lia.
  assert (E' : mo' = Z.of_nat k' + 1) by lia.
  subst mo mo'.
  replace (Z.of_nat k + 1 - 1) with (Z.of_nat k) in Hd by lia.
  replace (Z.of_nat k' + 1 - 1) with (Z.of_nat k') in Hd' by lia.
  assert (Hk : (k < 12)%nat) by lia. assert (Hk' : (k' < 12)%nat) by lia.
  clear Ek Ek' Hmo Hmo'.
  pose proof (month_tables y) as T. pose proof (leap_day_cases y).
  repeat destruct T as [[? ?] T]. destruct T as [? ?].
  intros Ed.
  do 12 (destruct k as [|k]; [month_cases k'|]). lia.
Qed.

Lemma valueOf_inj m1 m2 :
  calendar m1 -> calendar m2 -> valueOf m1 = valueOf m2 -> m1 = m2.
Proof.
  destruct m1 as [|y1 mo1 d1], m2 as [|y2 mo2 d2]; try done.
  intros (_ & Hmo1 & Hd1) (_ & Hmo2 & Hd2). simpl. intros [= E].
  pose proof (day_of_year_bounds y1 mo1 d1 Hmo1 Hd1) as B1.
  pose proof (day_of_year_bounds y2 mo2 d2 Hmo2 Hd2) as B2.
  pose proof (DayFromYear_succ y1) as S1.
  pose proof (DayFromYear_succ y2) as S2.
  unfold msPerDay in E.
  assert (y1 = y2) as ->.
  { destruct (Z.lt_trichotomy y1 y2) as [Hlt|[->|Hlt]]; [|done|].
    - pose proof (DayFromYear_mono (y1 + 1) y2). lia.
    - pose proof (DayFromYear_mono (y2 + 1) y1). lia. }
  destruct (day_of_year_inj y2 mo1 d1 mo2 d2) as [-> ->]; try done. lia.
Qed.

(** *** A day in digits, "ago" and 2020 *)

Lemma append_nil_l (s : string) : "" ++ s = s.
Proof. reflexivity. Qed.

Lemma append_cons c (a b : string) : String c a ++ b = String c (a ++ b).
Proof. reflexivity. Qed.

Lemma digit_not_dash c : RegExp.is_digit c = true -> Ascii.eqb c "-" = false.
Proof. destruct c as [[] [] [] [] [] [] [] []]; done. Qed.

Lemma take_digits_app max : forall run rest,
  Forall (fun c => RegExp.is_digit c = true) (list_ascii_of_string run) ->
  take_digits max (run ++ String "-" rest) =
  ((take_digits max run).1, (take_digits max run).2 ++ String "-" rest).
Proof.
  induction max as [|k IH]; intros [|c run] rest Hrun;
    rewrite ?append_nil_l, ?append_cons; simpl; try done.
  apply Forall_cons in Hrun as [Hc Hrun]. rewrite Hc, (IH run rest Hrun).
  by destruct (take_digits k run).
Qed.

Lemma take_digits_rest max : forall run,
  Forall (fun c => RegExp.is_digit c = true) (list_ascii_of_string run) ->
  Forall (fun c => RegExp.is_digit c = true)
         (list_ascii_of_string (take_digits max run).2).
Proof.
  induction max as [|k IH]; intros [|c run] Hrun; simpl; try done.
  apply Forall_cons in Hrun as Hc. destruct Hc as [Hc Hrun'].
  rewrite Hc. specialize (IH run Hrun'). by destruct (take_digits k run).
Qed.

Lemma skip_dash_digits (run rest : string) :
  Forall (fun c => RegExp.is_digit c = true) (list_ascii_of_string run) ->
  skip_dash (run ++ String "-" rest) = rest.
Proof.
  intros Hrun. unfold skip_dash.
  assert (H : after_dash (run ++ String "-" rest) = Some rest); [|by rewrite H].
  induction run as [|c run IH]; rewrite ?append_nil_l, ?append_cons; simpl; [done|].
  apply Forall_cons in Hrun as [Hc Hrun]. rewrite (digit_not_dash c Hc). by apply IH.
Qed.



(** *** The parser on well-formed input *)

(** For the years 2020 (leap) and 2021, every month of the locale and
    every day number below 100: the date is the day of the calendar, and
    invalid when the month has no such day. *)
Lemma utc_calendar_table now (y i n : nat) :
  y = 2020%nat \/ y = 2021%nat -> (i < 12)%nat -> (n < 100)%nat ->
  utc now (digits_of (N.of_nat n) ++ "-" ++ nth i monthsParse "" ++ ".-"
           ++ digits_of (N.of_nat y)) =
  if (1 <=? Z.of_nat n) && (Z.of_nat n <=? daysInMonth (Z.of_nat y) (Z.of_nat i))
  then UtcDay (Z.of_nat y) (Z.of_nat i + 1) (Z.of_nat n) else Invalid.
Proof.
  intros Hy Hi Hn.
  assert (H : forallb (fun y => forallb (fun i => forallb (fun n =>
                match utc now (digits_of (N.of_nat n) ++ "-" ++ nth i monthsParse ""
                               ++ ".-" ++ digits_of (N.of_nat y)),
                      (1 <=? Z.of_nat n) &&
                      (Z.of_nat n <=? daysInMonth (Z.of_nat y) (Z.of_nat i)) with
                | UtcDay y' m' d', true =>
                    (y' =? Z.of_nat y) && (m' =? Z.of_nat i + 1) && (d' =? Z.of_nat n)
                | Invalid, false => true
                | _, _ => false
                end) (seq 0 100)) (seq 0 12)) [2020; 2021]%nat = true)
    by (vm_compute; reflexivity).
  rewrite forallb_forall in H.
  assert (Hy' : In y [2020; 2021]%nat) by (destruct Hy as [-> | ->]; simpl; auto).
  specialize (H y Hy'). rewrite forallb_forall in H.
  specialize (H i ltac:(apply in_seq; lia)). rewrite forallb_forall in H.
  specialize (H n ltac:(apply in_seq; lia)).
  destruct (utc now _) as [|y' m' d'], (_ && _); try done.
  apply andb_true_iff in H as [H Ed]. apply andb_true_iff in H as [Ey Em].
  apply Z.eqb_eq in Ey, Em, Ed. by subst.
Qed.

End MomentFacts.

(** ** The aggregator *)

Section SeedFacts.

Variable now : Moment.Today.
Variable COL : Columns.
Variable CURR : Currencies.

Local Abbreviation getDate := (getDate now).
Local Abbreviation makeDay := (makeDay COL CURR).
Local Abbreviation iteration := (iteration now COL CURR).
Local Abbreviation loop := (loop now COL CURR).
Local Abbreviation makeArrayOfDays := (makeArrayOfDays now COL CURR).
Local Abbreviation carry := (carry COL).
Local Abbreviation context_at := (context_at COL).
Local Abbreviation resolve := (resolve now COL).
Local Abbreviation stores := (stores now COL CURR).
Local Abbreviation last_stores := (last_stores now COL CURR).
Local Abbreviation quote_columns := (quote_columns COL).
Local Abbreviation text_sheet := (text_sheet COL).

Implicit Types (lines : list (list Value)) (line : list Value).
Implicit Types (st : Loop) (lastDate : option Z) (key : string).

Lemma bind_Ok {A B} (r : result A) (k : A -> result B) (b : B) :
  r ≫= k = Ok b <-> exists a, r = Ok a /\ k a = Ok b.
Proof.
  destruct r as [a|e]; simpl.
  - split; [eauto|]. by intros (a' & [= <-] & H).
  - split; [done|]. by intros (a' & [=] & _).
Qed.

Lemma makeDay_date d line day : makeDay d line = Ok day -> date day = Moment.toDate d.
Proof.
  unfold Seed.makeDay. intros H.
  repeat (apply bind_Ok in H as (? & _ & H)). by injection H as <-.
Qed.

(** What one iteration does to the three variables. *)
Lemma iteration_Ok lastDate st line st' :
  iteration lastDate st line = Ok st' <->
  exists d,
    getDate (Js.index line (DAY COL))
      (carry (month st, year st) line).1 (carry (month st, year st) line).2 = Ok d /\
    (month st', year st') = carry (month st, year st) line /\
    if Moment.isSameOrBefore d lastDate then days st' = days st
    else exists day, makeDay d line = Ok day /\
                     days st' = <[Moment.format_L d := day]> (days st).
Proof.
  unfold Seed.iteration. rewrite bind_Ok. simpl. split.
  - intros (d & Hd & H). exists d. split; [done|].
    destruct (Moment.isSameOrBefore d lastDate).
    + by injection H as <-.
    + apply bind_Ok in H as (day & Hday & [= <-]). eauto.
  - intros (d & Hd & Hctx & H). exists d. split; [done|].
    destruct st' as [y' m' ds']. simpl in *. injection Hctx as -> ->.
    destruct (Moment.isSameOrBefore d lastDate).
    + by rewrite H.
    + destruct H as (day & -> & ->). done.
Qed.

Lemma loop_app lastDate st l1 l2 :
  loop lastDate st (l1 ++ l2) = loop lastDate st l1 ≫= fun st' => loop lastDate st' l2.
Proof.
  revert st. induction l1 as [|line l1 IH]; intros st; simpl; [done|].
  destruct (iteration lastDate st line); simpl; [apply IH|done].
Qed.

Lemma loop_context lastDate lines : forall st st',
  loop lastDate st lines = Ok st' ->
  (month st', year st') = foldl carry (month st, year st) lines.
Proof.
  induction lines as [|line lines IH]; intros st st'; simpl.
  - by intros [= <-].
  - intros (st1 & H1 & H2)%bind_Ok. apply IH in H2 as ->.
    apply iteration_Ok in H1 as (_ & _ & -> & _). done.
Qed.

Lemma context_at_app l1 l2 i :
  (i < length l1)%nat -> context_at (l1 ++ l2) i = context_at l1 i.
Proof. intros Hi. unfold Seed.context_at. by rewrite take_app_le by lia. Qed.

Lemma context_at_last l1 line :
  context_at (l1 ++ [line]) (length l1) = carry (foldl carry (Undefined, Undefined) l1) line.
Proof.
  unfold Seed.context_at. rewrite take_ge by (rewrite length_app; simpl; lia).
  by rewrite foldl_app.
Qed.

Lemma resolve_app l1 l2 i :
  (i < length l1)%nat -> resolve (l1 ++ l2) i = resolve l1 i.
Proof.
  intros Hi. unfold Seed.resolve.
  by rewrite context_at_app, app_nth1 by done.
Qed.

Lemma resolve_last l1 line :
  resolve (l1 ++ [line]) (length l1) =
  getDate (Js.index line (DAY COL))
    (carry (foldl carry (Undefined, Undefined) l1) line).1
    (carry (foldl carry (Undefined, Undefined) l1) line).2.
Proof.
  unfold Seed.resolve. rewrite context_at_last.
  by rewrite app_nth2, Nat.sub_diag by lia.
Qed.

Lemma stores_lt lastDate lines j key day :
  stores lastDate lines j key day -> (j < length lines)%nat.
Proof. intros (line & d & Hj & _). by eapply lookup_lt_Some. Qed.

Lemma stores_app lastDate l1 l2 j key day :
  (j < length l1)%nat ->
  stores lastDate (l1 ++ l2) j key day <-> stores lastDate l1 j key day.
Proof.
  intros Hj. unfold Seed.stores.
  setoid_rewrite (resolve_app l1 l2 j Hj).
  by setoid_rewrite (lookup_app_l l1 l2 j Hj).
Qed.

Lemma stores_functional lastDate lines j key day key' day' :
  stores lastDate lines j key day -> stores lastDate lines j key' day' ->
  key = key' /\ day = day'.
Proof.
  intros (line & d & Hj & Hd & _ & <- & Hday) (line' & d' & Hj' & Hd' & _ & <- & Hday').
  rewrite Hj in Hj'. injection Hj' as <-. rewrite Hd in Hd'. injection Hd' as <-.
  rewrite Hday in Hday'. by injection Hday' as <-.
Qed.

Lemma last_stores_snoc_other lastDate lines line key day :
  (forall day', ~ stores lastDate (lines ++ [line]) (length lines) key day') ->
  last_stores lastDate (lines ++ [line]) key day <-> last_stores lastDate lines key day.
Proof.
  intros Hnot. split; intros (j & Hs & Hlast).
  - pose proof (stores_lt _ _ _ _ _ Hs) as Hj. rewrite length_app in Hj. simpl in Hj.
    destruct (decide (j = length lines)) as [->|Hne]; [by apply Hnot in Hs|].
    exists j. split; [apply (stores_app _ lines [line]); [lia|done]|].
    intros k day' Hk Hs'. pose proof (stores_lt _ _ _ _ _ Hs') as Hk'.
    apply (Hlast k day' Hk). by apply stores_app.
  - pose proof (stores_lt _ _ _ _ _ Hs) as Hj.
    exists j. split; [by apply stores_app|].
    intros k day' Hk Hs'. pose proof (stores_lt _ _ _ _ _ Hs') as Hk'.
    rewrite length_app in Hk'. simpl in Hk'.
    destruct (decide (k = length lines)) as [->|Hne]; [by apply Hnot in Hs'|].
    apply (Hlast k day' Hk). apply (stores_app _ lines [line]); [lia|done].
Qed.

Lemma last_stores_snoc_same lastDate lines line key day day0 :
  stores lastDate (lines ++ [line]) (length lines) key day0 ->
  last_stores lastDate (lines ++ [line]) key day <-> day = day0.
Proof.
  intros Hs0. split.
  - intros (j & Hs & Hlast).
    destruct (decide (j = length lines)) as [->|Hne].
    + by destruct (stores_functional _ _ _ _ _ _ _ Hs Hs0).
    + pose proof (stores_lt _ _ _ _ _ Hs) as Hj. rewrite length_app in Hj. simpl in Hj.
      destruct (Hlast (length lines) day0); [lia|done].
  - intros ->. exists (length lines). split; [done|].
    intros k day' Hk Hs'. apply stores_lt in Hs'. rewrite length_app in Hs'.
    simpl in Hs'. lia.
Qed.

(** The object [days] after the loop: under each key, what the last
    iteration writing to that key put there. *)
Lemma loop_days lastDate lines : forall st,
  loop lastDate start lines = Ok st ->
  forall key day, days st !! key = Some day <-> last_stores lastDate lines key day.
Proof.
  induction lines as [|line lines IH] using rev_ind; intros st H key day.
  - injection H as <-. simpl. rewrite lookup_empty. split; [done|].
    intros (j & Hs & _). apply stores_lt in Hs. simpl in Hs. lia.
  - rewrite loop_app in H. apply bind_Ok in H as (st0 & H0 & H1).
    simpl in H1. apply bind_Ok in H1 as (st1 & H1 & [= ->]).
    pose proof (loop_context _ _ _ _ H0) as Hctx. simpl in Hctx.
    apply iteration_Ok in H1 as (d & Hd & _ & Hdays). rewrite Hctx in Hd.
    rewrite <- resolve_last in Hd.
    assert (Hline : (lines ++ [line])%list !! length lines = Some line).
    { by rewrite lookup_app_r, Nat.sub_diag by lia. }
    specialize (IH st0 H0 key day).
    destruct (Moment.isSameOrBefore d lastDate) eqn:Ef.
    + rewrite Hdays, IH. symmetry. apply last_stores_snoc_other.
      intros day' (line' & d' & _ & Hd' & Hf & _). congruence.
    + destruct Hdays as (day0 & Hday0 & ->).
      assert (Hs0 : stores lastDate (lines ++ [line]) (length lines)
                      (Moment.format_L d) day0).
      { exists line, d. done. }
      destruct (decide (Moment.format_L d = key)) as [<-|Hne].
      * rewrite lookup_insert_eq, (last_stores_snoc_same _ _ _ _ _ _ Hs0).
        split; congruence.
      * rewrite lookup_insert_ne, IH by done. symmetry.
        apply last_stores_snoc_other. intros day' Hs'.
        by destruct (stores_functional _ _ _ _ _ _ _ Hs0 Hs').
Qed.

(** When the loop completes, every line has a date, and every line that
    is not filtered out has its day built. *)
Lemma loop_rows lastDate lines : forall st,
  loop lastDate start lines = Ok st ->
  forall i line, lines !! i = Some line ->
    exists d, resolve lines i = Ok d /\
      (Moment.isSameOrBefore d lastDate = false -> exists day, makeDay d line = Ok day).
Proof.
  induction lines as [|x lines IH] using rev_ind; intros st H i line Hi; [done|].
  rewrite loop_app in H. apply bind_Ok in H as (st0 & H0 & H1).
  simpl in H1. apply bind_Ok in H1 as (st1 & H1 & [= ->]).
  pose proof (loop_context _ _ _ _ H0) as Hctx. simpl in Hctx.
  apply iteration_Ok in H1 as (d & Hd & _ & Hdays). rewrite Hctx in Hd.
  rewrite <- resolve_last in Hd.
  pose proof (lookup_lt_Some _ _ _ Hi) as Hlt. rewrite length_app in Hlt. simpl in Hlt.
  destruct (decide (i = length lines)) as [->|Hne].
  - rewrite lookup_app_r, Nat.sub_diag in Hi by lia. injection Hi as <-.
    exists d. split; [done|]. intros Hf. rewrite Hf in Hdays.
    destruct Hdays as (day & ? & _). eauto.
  - rewrite lookup_app_l in Hi by lia. rewrite resolve_app by lia. eauto.
Qed.

(** Conversely the loop completes when every line has a date and every
    line that is not filtered out has its day built. *)
Lemma loop_total lastDate lines :
  (forall i line, lines !! i = Some line ->
     exists d, resolve lines i = Ok d /\
       (Moment.isSameOrBefore d lastDate = false -> exists day, makeDay d line = Ok day)) ->
  exists st, loop lastDate start lines = Ok st.
Proof.
  induction lines as [|x lines IH] using rev_ind; intros Hrows; [by eexists|].
  destruct IH as [st0 H0].
  { intros i line Hi. pose proof (lookup_lt_Some _ _ _ Hi) as Hlt.
    destruct (Hrows i line) as (d & Hd & Hday); [by rewrite lookup_app_l|].
    rewrite resolve_app in Hd by done. eauto. }
  destruct (Hrows (length lines) x) as (d & Hd & Hday).
  { by rewrite lookup_app_r, Nat.sub_diag by lia. }
  rewrite resolve_last in Hd.
  pose proof (loop_context _ _ _ _ H0) as Hctx. simpl in Hctx.
  rewrite loop_app, H0. simpl.
  destruct (Moment.isSameOrBefore d lastDate) eqn:Ef.
  - eexists {| year := _; month := _; days := days st0 |}.
    apply bind_Ok. eexists. split; [|done].
    apply iteration_Ok. exists d. rewrite Hctx, Ef. done.
  - destruct Hday as [day Hday]; [done|].
    eexists {| year := _; month := _; days := <[Moment.format_L d := day]> (days st0) |}.
    apply bind_Ok. eexists. split; [|done].
    apply iteration_Ok. exists d. rewrite Hctx, Ef. eauto.
Qed.

Lemma makeArrayOfDays_Ok lastDate lines ds :
  makeArrayOfDays lastDate lines = Ok ds <->
  exists st, loop lastDate start lines = Ok st /\ days st = ds.
Proof.
  unfold Seed.makeArrayOfDays. rewrite bind_Ok. split.
  - intros (st & H & [= <-]). eauto.
  - intros (st & H & <-). eauto.
Qed.

Lemma loop_days_is_Some lastDate lines : forall st,
  loop lastDate start lines = Ok st ->
  forall i key day, stores lastDate lines i key day -> is_Some (days st !! key).
Proof.
  induction lines as [|line lines IH] using rev_ind; intros st H i key day Hs.
  - apply stores_lt in Hs. simpl in Hs. lia.
  - rewrite loop_app in H. apply bind_Ok in H as (st0 & H0 & H1).
    simpl in H1. apply bind_Ok in H1 as (st1 & H1 & [= ->]).
    pose proof (loop_context _ _ _ _ H0) as Hctx. simpl in Hctx.
    apply iteration_Ok in H1 as (d & Hd & _ & Hdays). rewrite Hctx in Hd.
    rewrite <- resolve_last in Hd.
    pose proof (stores_lt _ _ _ _ _ Hs) as Hi. rewrite length_app in Hi. simpl in Hi.
    assert (Hlast : i = length lines ->
              Moment.isSameOrBefore d lastDate = false /\ key = Moment.format_L d).
    { intros ->. destruct Hs as (line' & d' & _ & Hd' & Hf & <- & _).
      rewrite Hd in Hd'. by injection Hd' as <-. }
    assert (Hold : i <> length lines -> is_Some (days st0 !! key)).
    { intros Hne. apply (IH st0 H0 i key day).
      apply (stores_app _ lines [line]); [lia|done]. }
    destruct (Moment.isSameOrBefore d lastDate) eqn:Ef.
    + rewrite Hdays. apply Hold. intros [? _]%Hlast. done.
    + destruct Hdays as (day0 & _ & ->).
      destruct (decide (Moment.format_L d = key)) as [<-|Hne].
      * rewrite lookup_insert_eq. eauto.
      * rewrite lookup_insert_ne by done. apply Hold. intros [_ ?]%Hlast. done.
Qed.

Lemma resolve_calendar lines i d : resolve lines i = Ok d -> Moment.calendar d.
Proof.
  unfold Seed.resolve, Seed.getDate. intros (purged & _ & [= <-])%bind_Ok.
  apply MomentFacts.utc_calendar.
Qed.

(** Same-or-before compares the instants, and equal counts. *)
Lemma isSameOrBefore_spec d (D : Z) :
  Moment.isSameOrBefore d (Some D) = true <->
  exists t, Moment.valueOf d = Some t /\ t <= D.
Proof.
  unfold Moment.isSameOrBefore. destruct (Moment.valueOf d) as [t|].
  - rewrite orb_true_iff, Z.eqb_eq, Z.ltb_lt. split.
    + intros H. exists t. split; [done|lia].
    + intros (t' & [= <-] & H). lia.
  - split; [done|]. by intros (t & [=] & _).
Qed.

Lemma isSameOrBefore_null d : Moment.isSameOrBefore d None = false.
Proof. unfold Moment.isSameOrBefore. by destruct (Moment.valueOf d). Qed.


(** A line that is not filtered out has an entry under its date: the
    day built from the last line with that date. *)
Lemma row_entry lastDate lines ds i line d :
  makeArrayOfDays lastDate lines = Ok ds ->
  lines !! i = Some line -> resolve lines i = Ok d ->
  Moment.isSameOrBefore d lastDate = false ->
  exists j line_j day,
    (i <= j)%nat /\ lines !! j = Some line_j /\ resolve lines j = Ok d /\
    makeDay d line_j = Ok day /\ ds !! Moment.format_L d = Some day /\
    forall k, (j < k < length lines)%nat -> resolve lines k <> Ok d.
Proof.
  intros (st & Hloop & <-)%makeArrayOfDays_Ok Hi Hd Hf.
  destruct (loop_rows _ _ _ Hloop i line Hi) as (d' & Hd' & Hday).
  rewrite Hd in Hd'. injection Hd' as <-. destruct (Hday Hf) as [day_i Hday_i].
  assert (Hs : stores lastDate lines i (Moment.format_L d) day_i).
  { exists line, d. done. }
  destruct (loop_days_is_Some _ _ _ Hloop _ _ _ Hs) as [day Hlook].
  pose proof Hlook as Hlast. apply (loop_days _ _ _ Hloop) in Hlast.
  destruct Hlast as (j & Hsj & Hlast).
  pose proof Hsj as (line_j & d_j & Hj & Hdj & _ & Hkey & Hdayj).
  assert (d_j = d) as ->.
  { apply MomentFacts.format_L_inj; [by eapply resolve_calendar..|done]. }
  exists j, line_j, day. repeat split; try done.
  - destruct (decide (i <= j)%nat); [done|].
    destruct (Hlast i day_i); [lia|done].
  - intros k [Hjk Hk] Hdk.
    destruct (lookup_lt_is_Some_2 lines k Hk) as [line_k Hlk].
    destruct (loop_rows _ _ _ Hloop k line_k Hlk) as (d' & Hd' & Hday').
    rewrite Hdk in Hd'. injection Hd' as <-. destruct (Hday' Hf) as [day_k Hday_k].
    apply (Hlast k day_k Hjk). exists line_k, d. done.
Qed.

(** Every entry of [days] was put there by a line that passed the
    filter, under that line's date. *)
Lemma entry_row lastDate lines ds key day :
  makeArrayOfDays lastDate lines = Ok ds -> ds !! key = Some day ->
  exists j line d,
    lines !! j = Some line /\ resolve lines j = Ok d /\
    Moment.isSameOrBefore d lastDate = false /\
    key = Moment.format_L d /\ makeDay d line = Ok day /\
    date day = Moment.toDate d.
Proof.
  intros (st & Hloop & <-)%makeArrayOfDays_Ok Hlook.
  apply (loop_days _ _ _ Hloop) in Hlook as (j & (line & d & Hs) & _).
  destruct Hs as (Hj & Hd & Hf & Hkey & Hday).
  exists j, line, d. repeat split; try done. by eapply makeDay_date.
Qed.

(** *** The month and the year carried from line to line *)

Lemma truthy_or a b : Js.truthy (Js.or a b) = Js.truthy a || Js.truthy b.
Proof. unfold Js.or. destruct (Js.truthy a) eqn:E; simpl; [by rewrite E|done]. Qed.

Lemma or_truthy a b : Js.truthy a = true -> Js.or a b = a.
Proof. unfold Js.or. by intros ->. Qed.

Lemma or_falsy a b : Js.truthy a = false -> Js.or a b = b.
Proof. unfold Js.or. by intros ->. Qed.



(** The context of a line is [carry] of the line and of the context
    before it. *)
Lemma context_at_step lines j line :
  lines !! j = Some line ->
  context_at lines j = carry (foldl carry (Undefined, Undefined) (take j lines)) line.
Proof.
  intros Hj. unfold Seed.context_at.
  by rewrite (take_S_r lines j line), foldl_app by done.
Qed.

Lemma context_at_S lines j line :
  lines !! S j = Some line ->
  context_at lines (S j) = carry (context_at lines j) line.
Proof. apply context_at_step. Qed.



(** Once truthy, always truthy. *)
Lemma context_month_truthy lines k line_k :
  lines !! k = Some line_k ->
  Js.truthy (Js.index line_k (MONTH COL)) = true ->
  forall n line_j, lines !! (k + n)%nat = Some line_j ->
    Js.truthy (context_at lines (k + n)).1 = true.
Proof.
  intros Hk Hm. induction n as [|n IH]; intros line_j Hj.
  - rewrite Nat.add_0_r, (context_at_step _ _ _ Hk). simpl.
    by rewrite truthy_or, Hm.
  - replace (k + S n)%nat with (S (k + n)) in * by lia.
    destruct (lookup_lt_is_Some_2 lines (k + n)) as [line' Hj'].
    { apply lookup_lt_Some in Hj. lia. }
    rewrite (context_at_S _ _ _ Hj). simpl.
    by rewrite truthy_or, (IH line' Hj'), orb_true_r.
Qed.


(** The month of a line is [undefined] or a truthy cell of the month
    column, of this line or of one before it. *)
Lemma context_at_month_source lines : forall j line_j,
  lines !! j = Some line_j ->
  (context_at lines j).1 = Undefined \/
  exists i line_i, (i <= j)%nat /\ lines !! i = Some line_i /\
    (context_at lines j).1 = Js.index line_i (MONTH COL).
Proof.
  induction j as [|j IH]; intros line_j Hj.
  - rewrite (context_at_step _ _ _ Hj). simpl. unfold Js.or.
    destruct (Js.truthy _); [right|by left]. exists 0%nat, line_j. done.
  - destruct (lookup_lt_is_Some_2 lines j) as [line' Hj'].
    { apply lookup_lt_Some in Hj. lia. }
    rewrite (context_at_S _ _ _ Hj). simpl. unfold Js.or.
    destruct (Js.truthy _).
    + right. exists (S j), line_j. done.
    + destruct (IH line' Hj') as [->|(i & line_i & Hi & Hli & ->)]; [by left|].
      right. exists i, line_i. split; [lia|done].
Qed.

Lemma getDate_Str day s y :
  getDate day (Str s) y =
  Ok (Moment.utc now (Js.to_string day ++ "-" ++
        purgeMonth_switch (Js.trim (Js.toLowerCase s)) ++ ".-" ++ Js.to_string y)).
Proof. reflexivity. Qed.

(** [getDate] raises no error about dates: it returns a moment, valid
    or not, unless the month is not a string. *)
Lemma getDate_result day month year :
  (exists d, getDate day month year = Ok d) \/
  getDate day month year = Throw (Js.TypeError "month.toLowerCase is not a function").
Proof. destruct month; [by right|by right|left; rewrite getDate_Str; eauto]. Qed.

(** *** When [makeArrayOfDays] returns *)

Lemma getValue_Ok v : Js.not_a_number v -> exists o, getValue v = Ok o.
Proof.
  intros Hv. unfold getValue. destruct (RegExp.test FLOAT_REGEX v) eqn:E; [|eauto].
  destruct v as [|r|s]; [done|by destruct (Hv r)|eauto].
Qed.

Lemma makeDay_Ok d line :
  (forall c, c ∈ quote_columns -> Js.not_a_number (Js.index line c)) ->
  exists day, makeDay d line = Ok day.
Proof.
  intros H. unfold Seed.makeDay, currency.
  repeat match goal with
  | |- context [getValue (Js.index line ?c)] =>
      let o := fresh "o" in let E := fresh "E" in
      destruct (getValue_Ok (Js.index line c)) as [o E];
      [apply H; unfold Seed.quote_columns; set_solver|rewrite E; simpl]
  end.
  eauto.
Qed.

(** On a sheet whose first line names a month and whose month and quote
    columns hold text or nothing, the loop runs to its end. *)
Lemma makeArrayOfDays_returns lastDate lines :
  text_sheet lines -> exists ds, makeArrayOfDays lastDate lines = Ok ds.
Proof.
  intros [Htext Hfirst].
  destruct (loop_total lastDate lines) as [st Hst].
  - intros i line Hi.
    assert (Hin : line ∈ lines) by (apply list_elem_of_lookup; eauto).
    destruct (lookup_lt_is_Some_2 lines 0) as [first H0].
    { apply lookup_lt_Some in Hi. lia. }
    pose proof (context_month_truthy _ _ _ H0 (Hfirst _ H0) i line Hi) as Tm.
    simpl in Tm.
    assert (exists d, resolve lines i = Ok d) as [d Hd].
    { unfold Seed.resolve.
      destruct (context_at_month_source _ _ _ Hi) as [E|(k & line_k & _ & Hk & E)].
      - rewrite E in Tm. done.
      - rewrite E in *. destruct (Js.index line_k (MONTH COL)) as [|r|s] eqn:Ecell.
        + done.
        + assert (Hink : line_k ∈ lines) by (apply list_elem_of_lookup; eauto).
          destruct (proj1 (Htext _ Hink) r). done.
        + rewrite getDate_Str. eauto. }
    exists d. split; [done|]. intros _. apply makeDay_Ok, Htext, Hin.
  - exists (days st). apply makeArrayOfDays_Ok. eauto.
Qed.



(** *** The claims about the aggregator *)

(** C1. Whatever date [D] the store reports as its last, no day whose
    date is same-or-before [D] is in the object [makeArrayOfDays]
    returns: every entry comes from a line whose date passed the
    same-or-before test, and its date is strictly after [D], so a line
    dated [D] itself is dropped as well. *)
Theorem no_day_up_to_lastDate (D : Z) lines ds :
  makeArrayOfDays (Some D) lines = Ok ds ->
  forall key day, ds !! key = Some day ->
    (exists j line d,
        lines !! j = Some line /\ resolve lines j = Ok d /\
        makeDay d line = Ok day /\ key = Moment.format_L d /\
        Moment.isSameOrBefore d (Some D) = false) /\
    (forall t, date day = Some t -> D < t).
Proof.
  intros Hds key day Hlook.
  destruct (entry_row _ _ _ _ _ Hds Hlook) as (j & line & d & Hj & Hd & Hf & Hkey & Hday & Hdate).
  split; [by exists j, line, d|].
  intros t Ht. rewrite Hdate in Ht. unfold Moment.toDate in Ht.
  destruct (Z.lt_ge_cases D t) as [|Hle]; [done|].
  assert (Moment.isSameOrBefore d (Some D) = true); [|congruence].
  apply isSameOrBefore_spec. eauto.
Qed.



(** C6. When two lines resolve to the same date and pass the filter,
    the object has exactly one entry for that date, and it is the day
    built from the later line, [j], the last line with that date: it is
    what is found under the formatted date, and any entry carrying that
    date is this one. [makeArrayOfDays] returns the object on every
    sheet of text cells. *)
Theorem last_line_wins lastDate lines i j line_i line_j d :
  (i < j)%nat -> lines !! i = Some line_i -> lines !! j = Some line_j ->
  resolve lines i = Ok d -> resolve lines j = Ok d ->
  Moment.isSameOrBefore d lastDate = false ->
  (forall k, (j < k < length lines)%nat -> resolve lines k <> Ok d) ->
  (text_sheet lines -> exists ds, makeArrayOfDays lastDate lines = Ok ds) /\
  forall ds, makeArrayOfDays lastDate lines = Ok ds ->
    exists day,
      makeDay d line_j = Ok day /\
      ds !! Moment.format_L d = Some day /\
      forall key day',
        ds !! key = Some day' -> date day' = Moment.toDate d ->
        key = Moment.format_L d /\ day' = day.
Proof.
  intros Hij Hi Hj Hdi Hdj Hf Hlast. split; [apply makeArrayOfDays_returns|].
  intros ds Hds.
  destruct (row_entry _ _ _ _ _ _ Hds Hj Hdj Hf)
    as (j' & line' & day & Hjj' & Hj' & Hdj' & Hday & Hlook & _).
  assert (j' = j) as ->.
  { destruct (decide (j' = j)) as [|Hne]; [done|].
    destruct (Hlast j'); [|done]. split; [lia|by eapply lookup_lt_Some]. }
  rewrite Hj in Hj'. injection Hj' as <-.
  exists day. split; [done|]. split; [done|].
  intros key day' Hlook' Hdate.
  destruct (entry_row _ _ _ _ _ Hds Hlook')
    as (k & line_k & d_k & Hk & Hdk & _ & -> & _ & Hdate').
  assert (d_k = d) as ->.
  { apply MomentFacts.valueOf_inj; [by eapply resolve_calendar..|].
    unfold Moment.toDate in *. congruence. }
  split; [done|]. congruence.
Qed.


(** C10. When the store is empty and reports [null], the
    same-or-before test holds for no date, so no line is filtered out.
    [makeArrayOfDays] returns on every sheet of text cells, and in what
    it returns every line with a valid date has an entry under that
    date, which is the day built from the last line with that date. *)
Theorem empty_store_keeps_every_date lines :
  (forall d, Moment.isSameOrBefore d None = false) /\
  (text_sheet lines -> exists ds, makeArrayOfDays None lines = Ok ds) /\
  forall ds, makeArrayOfDays None lines = Ok ds ->
    forall i line d,
      lines !! i = Some line -> resolve lines i = Ok d -> Moment.isValid d = true ->
      exists j line_j day,
        (i <= j)%nat /\ lines !! j = Some line_j /\ resolve lines j = Ok d /\
        makeDay d line_j = Ok day /\ ds !! Moment.format_L d = Some day /\
        date day = Moment.toDate d /\
        forall k, (j < k < length lines)%nat -> resolve lines k <> Ok d.
Proof.
  split; [apply isSameOrBefore_null|]. split; [apply makeArrayOfDays_returns|].
  intros ds Hds i line d Hi Hd _.
  destruct (row_entry _ _ _ _ _ _ Hds Hi Hd (isSameOrBefore_null d))
    as (j & line_j & day & Hij & Hj & Hdj & Hday & Hlook & Hlast).
  exists j, line_j, day. repeat split; try done. by eapply makeDay_date.
Qed.

End SeedFacts.

(** ** The loader *)

Section CurrencyDayFacts.

Import CurrencyDay.

Lemma inserts_of_length (ds : list Day) :
  (forall day, day ∈ ds -> length (currencies day) = 4%nat) ->
  length (inserts_of ds) = (4 * length ds)%nat.
Proof.
  induction ds as [|day ds IH]; intros H; simpl; [done|].
  rewrite length_app, length_fmap, H, IH; [lia| |by left].
  intros day' Hin. apply H. by right.
Qed.

Lemma inserts_of_cons (day : Day) (ds : list Day) :
  inserts_of (day :: ds) = ((insert_row day <$> currencies day) ++ inserts_of ds)%list.
Proof. reflexivity. Qed.

Lemma inserts_of_lookup (ds : list Day) :
  (forall day, day ∈ ds -> length (currencies day) = 4%nat) ->
  forall (i : nat) day (c : nat) cur,
    ds !! i = Some day -> currencies day !! c = Some cur ->
    inserts_of ds !! (4 * i + c)%nat = Some (insert_row day cur).
Proof.
  induction ds as [|day0 ds IH]; intros H i day c cur Hi Hc; [done|].
  rewrite inserts_of_cons. pose proof (lookup_lt_Some _ _ _ Hc) as Hlt.
  destruct i as [|i]; simpl in Hi.
  - injection Hi as ->. replace (4 * 0 + c)%nat with c by lia.
    rewrite lookup_app_l by (rewrite length_fmap; lia).
    by rewrite list_lookup_fmap, Hc.
  - rewrite lookup_app_r; rewrite length_fmap, (H day0) by left; [|lia].
    replace (4 * S i + c - 4)%nat with (4 * i + c)%nat by lia.
    apply IH; [|done..]. intros day' Hin. apply H. by right.
Qed.

(** The guard of [insertDays] on the empty array. *)
Lemma insertDays_empty_array (db : Db) : insertDays (ArrayOfDays []) db = (Ok 0, db).
Proof. reflexivity. Qed.

(** Handed a plain object, [insertDays] throws before any query. *)
Lemma insertDays_object (ds : gmap string Day) (db : Db) :
  insertDays (ObjectOfDays ds) db =
  (Throw (Js.TypeError "days.forEach is not a function"), db).
Proof. reflexivity. Qed.

(** [getLastDate] on an empty table is [null]. *)
Lemma getLastDate_empty (db : Db) :
  currencyDay db = [] -> failure db = None -> getLastDate db = Ok None.
Proof. unfold getLastDate, query_max_date. by intros -> ->. Qed.

(** C7. Handed a non-empty array of [n] days of four currencies each,
    on a store that takes the statement, [insertDays] issues one
    [INSERT] of [4 * n] rows, which the table gains, and returns
    [4 * n]; row [4 * i + c] is currency [c] of day [i] and carries that
    day's date, so the four rows of a day share its date. *)
Theorem insertDays_one_row_per_currency (ds : list Day) (db : Db) :
  ds <> [] ->
  (forall day, day ∈ ds -> length (currencies day) = 4%nat) ->
  failure db = None ->
  insertDays (ArrayOfDays ds) db =
    (Ok (4 * Z.of_nat (length ds)),
     {| currencyDay := currencyDay db ++ inserts_of ds; failure := None;
        writes := writes db ++ [inserts_of ds] |}) /\
  length (inserts_of ds) = (4 * length ds)%nat /\
  forall (i : nat) day (c : nat) cur,
    ds !! i = Some day -> currencies day !! c = Some cur ->
    inserts_of ds !! (4 * i + c)%nat = Some (insert_row day cur) /\
    row_date (insert_row day cur) = date day /\
    row_iso (insert_row day cur) = iso cur.
Proof.
  intros Hne H4 Hok. pose proof (inserts_of_length ds H4) as Hlen.
  split; [|split; [done|]].
  - destruct ds as [|day ds]; [done|]. unfold insertDays, query_insert.
    rewrite Hok. destruct (inserts_of (day :: ds)) as [|r rs] eqn:E.
    + simpl in Hlen. lia.
    + rewrite Hlen. do 2 f_equal. lia.
  - intros i day c cur Hi Hc. split; [by apply inserts_of_lookup|done].
Qed.

End CurrencyDayFacts.

(** ** The claims on the sample sheet *)

(** C1 on the sample: with the first of August as last date, the line
    of that day is dropped and the day stored is later. *)
Lemma no_day_up_to_lastDate_sample :
  makeArrayOfDays Sample.today Sample.columns Sample.codes (Some Sample.t_aug1)
    [Sample.aug1; Sample.aug2]
  = Ok (Sample.days_of (Some Sample.t_aug1) [Sample.aug1; Sample.aug2]) /\
  Sample.days_of (Some Sample.t_aug1) [Sample.aug1; Sample.aug2] !! "02/08/2020"
  = Some Sample.day_aug2 /\
  Sample.days_of (Some Sample.t_aug1) [Sample.aug1; Sample.aug2] !! "01/08/2020" = None /\
  Sample.t_aug1 < Sample.t_aug2.
Proof.
  assert (H1 : makeArrayOfDays Sample.today Sample.columns Sample.codes
                 (Some Sample.t_aug1) [Sample.aug1; Sample.aug2]
               = Ok (Sample.days_of (Some Sample.t_aug1) [Sample.aug1; Sample.aug2]))
    by (vm_compute; reflexivity).
  assert (H2 : Sample.days_of (Some Sample.t_aug1) [Sample.aug1; Sample.aug2]
                 !! "02/08/2020" = Some Sample.day_aug2)
    by (vm_compute; reflexivity).
  split; [exact H1|]. split; [exact H2|]. split; [vm_compute; reflexivity|].
  exact (proj2 (no_day_up_to_lastDate _ _ _ _ _ _ H1 _ _ H2) Sample.t_aug2 eq_refl).
Defined.





(** C6 on the sample: two lines for the second of August; the entry is
    the day of the later one. *)
Lemma last_line_wins_sample :
  resolve Sample.today Sample.columns
    [Sample.aug1; Sample.aug2; Sample.aug2_again] 1 = Ok (Moment.UtcDay 2020 8 2) /\
  resolve Sample.today Sample.columns
    [Sample.aug1; Sample.aug2; Sample.aug2_again] 2 = Ok (Moment.UtcDay 2020 8 2) /\
  Sample.days_of None [Sample.aug1; Sample.aug2; Sample.aug2_again] !! "02/08/2020"
  = Some Sample.day_aug2_again.
Proof.
  assert (H1 : makeArrayOfDays Sample.today Sample.columns Sample.codes None
                 [Sample.aug1; Sample.aug2; Sample.aug2_again]
               = Ok (Sample.days_of None [Sample.aug1; Sample.aug2; Sample.aug2_again]))
    by (vm_compute; reflexivity).
  assert (Hi : resolve Sample.today Sample.columns
                 [Sample.aug1; Sample.aug2; Sample.aug2_again] 1
               = Ok (Moment.UtcDay 2020 8 2)) by (vm_compute; reflexivity).
  assert (Hj : resolve Sample.today Sample.columns
                 [Sample.aug1; Sample.aug2; Sample.aug2_again] 2
               = Ok (Moment.UtcDay 2020 8 2)) by (vm_compute; reflexivity).
  split; [exact Hi|]. split; [exact Hj|].
  destruct (proj2 (last_line_wins Sample.today Sample.columns Sample.codes None
                     [Sample.aug1; Sample.aug2; Sample.aug2_again]
                     1%nat 2%nat Sample.aug2 Sample.aug2_again _
                     ltac:(lia) eq_refl eq_refl Hi Hj eq_refl
                     ltac:(simpl; intros; lia)) _ H1)
    as (day & Hday & Hlook & _).
  vm_compute in Hday. injection Hday as <-. exact Hlook.
Defined.


(** C10 on the sample: with no last date the first of August is kept. *)
Lemma empty_store_keeps_every_date_sample :
  makeArrayOfDays Sample.today Sample.columns Sample.codes None
    [Sample.aug1; Sample.aug2]
  = Ok (Sample.days_of None [Sample.aug1; Sample.aug2]) /\
  is_Some (Sample.days_of None [Sample.aug1; Sample.aug2] !! "01/08/2020").
Proof.
  assert (H1 : makeArrayOfDays Sample.today Sample.columns Sample.codes None
                 [Sample.aug1; Sample.aug2]
               = Ok (Sample.days_of None [Sample.aug1; Sample.aug2]))
    by (vm_compute; reflexivity).
  split; [exact H1|].
  destruct (proj2 (proj2 (empty_store_keeps_every_date Sample.today Sample.columns
                            Sample.codes [Sample.aug1; Sample.aug2])) _ H1
              0%nat Sample.aug1 (Moment.UtcDay 2020 8 1)
              eq_refl ltac:(vm_compute; reflexivity) eq_refl)
    as (j & line_j & day & _ & _ & _ & _ & Hlook & _).
  exists day. exact Hlook.
Defined.

(** C7 on the sample: one day, four rows. *)
Lemma insertDays_one_row_per_currency_sample :
  CurrencyDay.insertDays (CurrencyDay.ArrayOfDays [Sample.day_aug2]) Sample.empty_db =
  (Ok 4,
   {| CurrencyDay.currencyDay := CurrencyDay.inserts_of [Sample.day_aug2];
      CurrencyDay.failure := None;
      CurrencyDay.writes := [CurrencyDay.inserts_of [Sample.day_aug2]] |}) /\
  length (CurrencyDay.inserts_of [Sample.day_aug2]) = 4%nat.
Proof.
  destruct (insertDays_one_row_per_currency [Sample.day_aug2] Sample.empty_db)
    as (Hres & Hlen & _).
  - discriminate.
  - intros day Hin. apply list_elem_of_singleton in Hin. subst day. reflexivity.
  - reflexivity.
  - split; [exact Hres|exact Hlen].
Defined.

(** Whatever the sheet and the store, [seed] ends with an exception and
    leaves the store as it was: when [makeArrayOfDays] returns, its
    object goes to [insertDays] as it is. *)
Lemma seed_always_throws now COL CURR rows (db : CurrencyDay.Db) :
  exists e, seed now COL CURR rows db = (Throw e, db).
Proof.
  unfold seed. destruct (CurrencyDay.getLastDate db) as [lastDate|e]; [|eauto].
  destruct (makeArrayOfDays now COL CURR lastDate (usefulLines rows)); eauto.
Qed.

(** C8. When every line of the sheet is already in the store, or the
    sheet is empty, the aggregator returns the empty object, and [seed]
    hands it to [insertDays] without flattening it: the guard for an
    empty array does not apply, no 0 is returned and a [TypeError] is
    thrown; the store receives no write. On the empty array itself
    [insertDays] does return 0. *)
Theorem seed_empty_days_throws :
  (CurrencyDay.getLastDate Sample.stored_db = Ok (Some Sample.t_aug2) /\
   makeArrayOfDays Sample.today Sample.columns Sample.codes (Some Sample.t_aug2)
     (usefulLines [Sample.aug1; Sample.aug2]) = Ok ∅ /\
   seed Sample.today Sample.columns Sample.codes [Sample.aug1; Sample.aug2]
     Sample.stored_db =
     (Throw (Js.TypeError "days.forEach is not a function"), Sample.stored_db)) /\
  (makeArrayOfDays Sample.today Sample.columns Sample.codes None [] = Ok ∅ /\
   seed Sample.today Sample.columns Sample.codes [] Sample.empty_db =
     (Throw (Js.TypeError "days.forEach is not a function"), Sample.empty_db)) /\
  CurrencyDay.insertDays (CurrencyDay.ArrayOfDays []) Sample.empty_db =
    (Ok 0, Sample.empty_db).
Proof. repeat split; vm_compute; reflexivity. Qed.

(** * Further properties *)

(** ** More about the filter of [readFile] *)

Lemma test_INT_REGEX (v : Value) :
  RegExp.test INT_REGEX v = true <->
  one_or_more_digits (list_ascii_of_string (Js.to_string v)).
Proof.
  unfold RegExp.test, INT_REGEX. rewrite RegExpFacts.matches_spec.
  apply RegExpFacts.lang_plus_digit.
Qed.

Lemma filter_sublist {A} (f : A -> bool) (l : list A) : sublist (List.filter f l) l.
Proof.
  induction l as [|x l IH]; simpl; [constructor|].
  destruct (f x); by constructor.
Qed.

Lemma filter_filter {A} (f : A -> bool) (l : list A) :
  List.filter f (List.filter f l) = List.filter f l.
Proof.
  induction l as [|x l IH]; simpl; [done|].
  destruct (f x) eqn:E; simpl; [|done]. by rewrite E, IH.
Qed.

(** X1. The lines [readFile] keeps are exactly the rows whose first
    cell reads as one or more digits; they stay in the order of the
    sheet, and filtering twice changes nothing. *)
Theorem readFile_keeps_numbered_rows (rows : list (list Value)) :
  (forall line, line ∈ usefulLines rows <->
     line ∈ rows /\
     one_or_more_digits (list_ascii_of_string (Js.to_string (Js.index line 0)))) /\
  sublist (usefulLines rows) rows /\
  usefulLines (usefulLines rows) = usefulLines rows.
Proof.
  unfold usefulLines. split; [|split].
  - intros line. rewrite !list_elem_of_In, filter_In, test_INT_REGEX. done.
  - apply filter_sublist.
  - apply filter_filter.
Qed.

(** ** More about [getValue] *)

Lemma replace_no_comma (s : string) :
  ~ In ","%char (list_ascii_of_string s) -> Js.replace "," "." s = s.
Proof.
  induction s as [|c s IH]; simpl; [done|]. intros H.
  destruct (Ascii.eqb_spec c ","); [tauto|]. f_equal. tauto.
Qed.

Lemma digits_no_comma (w : list ascii) :
  Forall (fun c => RegExp.is_digit c = true) w -> ~ In ","%char w.
Proof.
  intros H Hin. rewrite Forall_forall in H.
  apply list_elem_of_In, H in Hin. done.
Qed.

Lemma getValue_normal_form_aux (s out : string) :
  getValue (Str s) = Ok (Some out) ->
  valid_quote out /\ ~ In ","%char (list_ascii_of_string out) /\
  getValue (Str out) = Ok (Some out).
Proof.
  rewrite getValue_Str. destruct (RegExp.test FLOAT_REGEX (Str s)) eqn:E; [|done].
  intros [= <-]. apply FLOAT_REGEX_valid_quote in E.
  assert (H : valid_quote (Js.replace "," "." s) /\
              ~ In ","%char (list_ascii_of_string (Js.replace "," "." s))).
  { destruct E as [[Hne Hd] | (a & sep & b & Hw & [Ha Hda] & Hsep & [Hb Hdb])].
    - rewrite replace_digits by done. split; [by left|by apply digits_no_comma].
    - pose proof (replace_separator a s sep b Hw Hda Hsep Hdb) as Hr. split.
      + right. exists a, "."%char, b. repeat split; auto.
      + rewrite Hr, in_app_iff. intros [Hin | [Hin | Hin]]; [|done|].
        * by apply (digits_no_comma a).
        * by apply (digits_no_comma b). }
  destruct H as [Hv Hc]. split; [done|]. split; [done|].
  rewrite getValue_Str. apply FLOAT_REGEX_valid_quote in Hv. rewrite Hv.
  by rewrite replace_no_comma.
Qed.

(** X2. What [getValue] returns for a text cell is in normal form: it
    is a valid quote with no comma in it, and [getValue] maps it to
    itself, so reading a quote twice is reading it once. *)
Theorem getValue_normal_form (s out : string) :
  getValue (Str s) = Ok (Some out) ->
  valid_quote out /\ ~ In ","%char (list_ascii_of_string out) /\
  getValue (Str out) = Ok (Some out).
Proof. apply getValue_normal_form_aux. Qed.

(** X3. [getValue] throws on exactly one kind of cell: a number that
    renders as a valid quote. On every other cell it returns. *)
Theorem getValue_throws_iff (v : Value) :
  (exists e, getValue v = Throw e) <-> exists r, v = Number r /\ valid_quote r.
Proof.
  destruct v as [|r|s].
  - split; [intros [e H]; by vm_compute in H|intros (r & H & _); done].
  - assert (Ht : RegExp.test FLOAT_REGEX (Number r) = RegExp.test FLOAT_REGEX (Str r))
      by reflexivity.
    unfold getValue. rewrite Ht.
    destruct (RegExp.test FLOAT_REGEX (Str r)) eqn:E.
    + apply FLOAT_REGEX_valid_quote in E. split; eauto.
    + split; [intros [e H]; done|]. intros (r' & [= <-] & Hv).
      apply FLOAT_REGEX_valid_quote in Hv. congruence.
  - rewrite getValue_Str. split.
    + intros [e H]. by destruct (RegExp.test _ _).
    + intros (r & H & _). done.
Qed.

(** ** More about [purgeMonth] *)

(** X4. [purgeMonth] does not tell apart two spellings that differ in
    case or in the white space around them, and what it returns is in
    lower case, trimmed, and none of the four aliases it rewrites. *)
Theorem purgeMonth_ignores_case_and_space (s : string) :
  purgeMonth (Str (Js.toLowerCase s)) = purgeMonth (Str s) /\
  purgeMonth (Str (Js.trim s)) = purgeMonth (Str s) /\
  exists t, purgeMonth (Str s) = Ok t /\
    Js.toLowerCase t = t /\ Js.trim t = t /\
    t <> "set" /\ t <> "setiembre" /\ t <> "septiembre" /\ t <> "agosto".
Proof.
  unfold purgeMonth. split; [by rewrite JsFacts.toLowerCase_idem|].
  split; [by rewrite JsFacts.toLowerCase_trim, JsFacts.trim_idem|].
  eexists. split; [reflexivity|].
  set (n := Js.trim (Js.toLowerCase s)).
  assert (Hn : Js.trim (Js.toLowerCase n) = n).
  { unfold n. by rewrite JsFacts.toLowerCase_trim, JsFacts.toLowerCase_idem,
      JsFacts.trim_idem. }
  assert (Hl : Js.toLowerCase n = n).
  { unfold n. by rewrite JsFacts.toLowerCase_trim, JsFacts.toLowerCase_idem. }
  assert (Ht : Js.trim n = n) by (unfold n; apply JsFacts.trim_idem).
  unfold purgeMonth_switch.
  destruct (String.eqb_spec n "set"); [done|].
  destruct (String.eqb_spec n "setiembre"); [done|].
  destruct (String.eqb_spec n "septiembre"); [done|].
  destruct (String.eqb_spec n "agosto"); done.
Qed.

(** ** More about the parser: a day, a month of the locale and a year *)

Module ParseFacts.

Import Moment.

Lemma length_append (a b : string) :
  String.length (a ++ b) = (String.length a + String.length b)%nat.
Proof.
  induction a as [|c a IH]; [done|].
  rewrite MomentFacts.append_cons. simpl. by rewrite IH.
Qed.

Lemma substring_prefix (a b : string) : substring 0 (String.length a) (a ++ b) = a.
Proof.
  induction a as [|c a IH].
  - simpl. by destruct (_ ++ _).
  - rewrite MomentFacts.append_cons. simpl. by rewrite IH.
Qed.

(** The text of a month as [getDate] writes it, the abbreviation or the
    full name, each followed by [".-"] and the year. *)
Lemma month_token (i : nat) (ys : string) :
  (i < 12)%nat ->
  exec_alternatives alternatives (nth i monthsParse "" ++ String "." (String "-" ys))
    = Some (String "-" ys) /\
  exec_alternatives alternatives (nth i months "" ++ String "." (String "-" ys))
    = Some (String "." (String "-" ys)) /\
  first_month monthsParse 0 (nth i monthsParse "" ++ ".") = Some (Z.of_nat i) /\
  first_month monthsParse 0 (nth i months "") = Some (Z.of_nat i).
Proof.
  intros Hi. do 12 (destruct i as [|i]; [repeat split; vm_compute; reflexivity|]). lia.
Qed.

(** The month of [getDate]'s input: [tok] is what the token [MMM]
    takes and [rest] what it leaves. *)
Lemma month_name_token (i : nat) (mon ys : string) :
  (i < 12)%nat -> mon = nth i monthsParse "" \/ mon = nth i months "" ->
  exists tok rest,
    mon ++ String "." (String "-" ys) = tok ++ rest /\
    exec_alternatives alternatives (tok ++ rest) = Some rest /\
    first_month monthsParse 0 tok = Some (Z.of_nat i) /\
    skip_dash rest = ys.
Proof.
  intros Hi Hmon.
  destruct (month_token i ys Hi) as (Hshort & Hlong & Hfs & Hfl).
  destruct Hmon as [-> | ->].
  - exists (nth i monthsParse "" ++ "."), (String "-" ys). repeat split; try done.
    + clear. induction (nth i monthsParse "") as [|c s IH]; [done|].
      rewrite !MomentFacts.append_cons. by f_equal.
    + assert (E : (nth i monthsParse "" ++ ".") ++ String "-" ys =
                  nth i monthsParse "" ++ String "." (String "-" ys)).
      { clear. induction (nth i monthsParse "") as [|c s IH]; [done|].
        rewrite !MomentFacts.append_cons. by f_equal. }
      by rewrite E.
  - exists (nth i months ""), (String "." (String "-" ys)). repeat split; done.
Qed.

Lemma scan_day_month_year (run mon ys : string) (i : nat) :
  one_or_more_digits (list_ascii_of_string run) ->
  (i < 12)%nat -> mon = nth i monthsParse "" \/ mon = nth i months "" ->
  exists tok,
    first_month monthsParse 0 tok = Some (Z.of_nat i) /\
    scan (run ++ "-" ++ mon ++ ".-" ++ ys) =
    (Some (toInt (take_digits 2 run).1), Some tok,
     (fun found => parse_year found.1) <$> find_digits 4 ys).
Proof.
  intros [Hne Hrun] Hi Hmon.
  destruct (month_name_token i mon ys Hi Hmon) as (tok & rest & Hs & Hexec & Hfirst & Hskip).
  exists tok. split; [done|].
  assert (Hin : run ++ "-" ++ mon ++ ".-" ++ ys = run ++ String "-" (tok ++ rest)).
  { rewrite <- Hs. reflexivity. }
  rewrite Hin. unfold scan.
  assert (Hfind : find_digits 2 (run ++ String "-" (tok ++ rest)) =
                  Some (take_digits 2 (run ++ String "-" (tok ++ rest)))).
  { destruct run as [|c run]; [done|]. rewrite MomentFacts.append_cons. simpl.
    apply Forall_cons in Hrun as [Hc _]. by rewrite Hc. }
  rewrite Hfind, MomentFacts.take_digits_app by done.
  rewrite MomentFacts.skip_dash_digits by by apply MomentFacts.take_digits_rest.
  rewrite Hexec, length_append.
  replace (String.length tok + String.length rest - String.length rest)%nat
    with (String.length tok) by lia.
  by rewrite substring_prefix, Hskip.
Qed.

Lemma utc_day_month_year now (run mon ys : string) (i : nat) :
  one_or_more_digits (list_ascii_of_string run) ->
  (i < 12)%nat -> mon = nth i monthsParse "" \/ mon = nth i months "" ->
  utc now (run ++ "-" ++ mon ++ ".-" ++ ys) =
  let d := toInt (take_digits 2 run).1 in
  let y := default (Z.of_N (now_year now))
             ((fun found => parse_year found.1) <$> find_digits 4 ys) in
  if (1 <=? d) && (d <=? daysInMonth y (Z.of_nat i))
  then UtcDay y (Z.of_nat i + 1) d else Invalid.
Proof.
  intros Hrun Hi Hmon.
  destruct (scan_day_month_year run mon ys i Hrun Hi Hmon) as (tok & Hfirst & Hscan).
  unfold utc. rewrite Hscan. cbv beta iota zeta.
  change (Some tok ≫= first_month monthsParse 0) with (first_month monthsParse 0 tok).
  rewrite Hfirst.
  destruct (_ <$> find_digits 4 ys) as [y|]; cbn [isSome negb orb andb configFromArray default];
  unfold overflow, id;
    repeat match goal with
           | |- context [Z.ltb ?a ?b] => destruct (Z.ltb_spec a b)
           | |- context [Z.leb ?a ?b] => destruct (Z.leb_spec a b)
           end; simpl; try done; lia.
Qed.

(** A day number below 100 in decimal digits. *)
Lemma day_digits (n : nat) :
  (n < 100)%nat ->
  one_or_more_digits (list_ascii_of_string (digits_of (N.of_nat n))) /\
  toInt (take_digits 2 (digits_of (N.of_nat n))).1 = Z.of_nat n.
Proof.
  intros Hn.
  assert (H : forallb (fun n =>
                let run := digits_of (N.of_nat n) in
                negb (String.eqb run "") &&
                forallb RegExp.is_digit (list_ascii_of_string run) &&
                (toInt (take_digits 2 run).1 =? Z.of_nat n)) (seq 0 100) = true)
    by (vm_compute; reflexivity).
  rewrite forallb_forall in H. specialize (H n ltac:(apply in_seq; lia)).
  cbv zeta in H. apply andb_true_iff in H as [H Hint].
  apply andb_true_iff in H as [Hne Hd]. apply Z.eqb_eq in Hint.
  split; [|done]. split.
  - intros E. destruct (digits_of (N.of_nat n)); done.
  - apply Forall_forall. intros c Hc. rewrite forallb_forall in Hd.
    apply Hd. by apply list_elem_of_In.
Qed.

(** A year of four digits. *)
Lemma year_digits (y : N) :
  (1000 <= y <= 9999)%N ->
  (fun found => parse_year found.1) <$> find_digits 4 (digits_of y) = Some (Z.of_N y).
Proof.
  intros Hy.
  assert (H : forallb (fun a => forallb (fun b =>
                match (fun found => parse_year found.1)
                        <$> find_digits 4 (digits_of (100 * N.of_nat a + N.of_nat b)) with
                | Some v => v =? Z.of_N (100 * N.of_nat a + N.of_nat b)
                | None => false
                end) (seq 0 100)) (seq 10 90) = true)
    by (vm_compute; reflexivity).
  rewrite forallb_forall in H.
  pose proof (N.div_mod y 100 ltac:(lia)) as Hdm.
  assert (Hb : (y mod 100 < 100)%N) by (apply N.mod_upper_bound; lia).
  set (a := (y / 100)%N) in *. set (b := (y mod 100)%N) in *. clearbody a b.
  specialize (H (N.to_nat a) ltac:(apply in_seq; lia)).
  rewrite forallb_forall in H.
  specialize (H (N.to_nat b) ltac:(apply in_seq; lia)).
  rewrite !N2Nat.id, <- Hdm in H.
  destruct (_ <$> _) as [v|]; [|done].
  apply Z.eqb_eq in H. by f_equal.
Qed.

End ParseFacts.

Section GetDateFacts.

Variable now : Moment.Today.

Local Abbreviation getDate := (getDate now).

Lemma getDate_calendar (day month year : Value) (n i : nat) (y : N) :
  Js.to_string day = Moment.digits_of (N.of_nat n) -> (n < 100)%nat ->
  (i < 12)%nat ->
  purgeMonth month = Ok (nth i Moment.monthsParse "") \/
  purgeMonth month = Ok (nth i Moment.months "") ->
  Js.to_string year = Moment.digits_of y -> (1000 <= y <= 9999)%N ->
  getDate day month year =
  Ok (if (1 <=? Z.of_nat n) &&
         (Z.of_nat n <=? Moment.daysInMonth (Z.of_N y) (Z.of_nat i))
      then Moment.UtcDay (Z.of_N y) (Z.of_nat i + 1) (Z.of_nat n)
      else Moment.Invalid).
Proof.
  intros Hday Hn Hi Hmonth Hyear Hy.
  destruct (ParseFacts.day_digits n Hn) as [Hrun Hint].
  assert (H : exists mon, purgeMonth month = Ok mon /\
                (mon = nth i Moment.monthsParse "" \/ mon = nth i Moment.months ""))
    by (destruct Hmonth; eauto).
  destruct H as (mon & Hp & Hmon).
  unfold Seed.getDate. rewrite Hp, Hday, Hyear. simpl. f_equal.
  rewrite (ParseFacts.utc_day_month_year now _ mon _ i Hrun Hi Hmon).
  cbv zeta. by rewrite ParseFacts.year_digits, Hint.
Qed.

(** X5. [getDate] on a day number, a month of the locale and a year of
    four digits: when the month text is purged to the name of a month or
    to its abbreviation, the date is that day of the calendar, and it is
    the invalid moment when the month has no such day. *)
Theorem getDate_is_the_calendar_day (day month year : Value) (n i : nat) (y : N) :
  Js.to_string day = Moment.digits_of (N.of_nat n) -> (n < 100)%nat ->
  (i < 12)%nat ->
  purgeMonth month = Ok (nth i Moment.monthsParse "") \/
  purgeMonth month = Ok (nth i Moment.months "") ->
  Js.to_string year = Moment.digits_of y -> (1000 <= y <= 9999)%N ->
  getDate day month year =
  Ok (if (1 <=? Z.of_nat n) &&
         (Z.of_nat n <=? Moment.daysInMonth (Z.of_N y) (Z.of_nat i))
      then Moment.UtcDay (Z.of_N y) (Z.of_nat i + 1) (Z.of_nat n)
      else Moment.Invalid).
Proof. apply getDate_calendar. Qed.

(** X6. A date without a year is a date of the current year: while
    no line has supplied a year, [getDate] is handed [undefined] for it,
    and the day and the month are read in the year of the run. *)
Theorem getDate_without_year_is_this_year (day month : Value) (n i : nat) :
  Js.to_string day = Moment.digits_of (N.of_nat n) -> (n < 100)%nat ->
  (i < 12)%nat ->
  purgeMonth month = Ok (nth i Moment.monthsParse "") \/
  purgeMonth month = Ok (nth i Moment.months "") ->
  getDate day month Undefined =
  Ok (if (1 <=? Z.of_nat n) &&
         (Z.of_nat n <=? Moment.daysInMonth (Z.of_N (Moment.now_year now)) (Z.of_nat i))
      then Moment.UtcDay (Z.of_N (Moment.now_year now)) (Z.of_nat i + 1) (Z.of_nat n)
      else Moment.Invalid).
Proof.
  intros Hday Hn Hi Hmonth.
  destruct (ParseFacts.day_digits n Hn) as [Hrun Hint].
  assert (H : exists mon, purgeMonth month = Ok mon /\
                (mon = nth i Moment.monthsParse "" \/ mon = nth i Moment.months ""))
    by (destruct Hmonth; eauto).
  destruct H as (mon & Hp & Hmon).
  unfold Seed.getDate. rewrite Hp, Hday. simpl. f_equal.
  rewrite (ParseFacts.utc_day_month_year now _ mon _ i Hrun Hi Hmon).
  cbv zeta. by rewrite Hint.
Qed.

(** X7. [getDate] throws exactly when the month is not a string, and
    then a [TypeError]. What it returns is never a date that does not
    exist: it is the invalid moment, or a day of a month that has that
    day; a day number too large is not carried over into the next
    month. *)
Theorem getDate_throws_or_calendar (day month year : Value) :
  ((exists d, getDate day month year = Ok d) <-> exists s, month = Str s) /\
  (forall e, getDate day month year = Throw e -> exists what, e = Js.TypeError what) /\
  (forall d, getDate day month year = Ok d ->
     d = Moment.Invalid \/
     exists y mo dd, d = Moment.UtcDay y mo dd /\ 0 <= y /\ 1 <= mo <= 12 /\
                     1 <= dd <= Moment.daysInMonth y (mo - 1)).
Proof.
  split; [|split].
  - split.
    + intros [d H]. destruct month as [| |s]; [done..|]. eauto.
    + intros [s ->]. rewrite getDate_Str. eauto.
  - intros e H. destruct (getDate_result now day month year) as [[d Hd] | Ht].
    + congruence.
    + rewrite Ht in H. injection H as <-. eauto.
  - intros d H. destruct month as [| |s]; [done..|]. rewrite getDate_Str in H.
    injection H as <-. pose proof (MomentFacts.utc_calendar now
      (Js.to_string day ++ "-" ++ purgeMonth_switch (Js.trim (Js.toLowerCase s))
       ++ ".-" ++ Js.to_string year)) as Hc.
    destruct (Moment.utc now _) as [|y mo dd]; [by left|]. right.
    exists y, mo, dd. done.
Qed.

(** X8. The spellings [purgeMonth] rewrites name the month meant:
    "set", "setiembre" and "septiembre", in any case and with white
    space around, are September, and "agosto" is August. *)
Theorem setiembre_is_september (day year : Value) (s : string) (n : nat) (y : N) :
  Js.to_string day = Moment.digits_of (N.of_nat n) -> (n < 100)%nat ->
  Js.to_string year = Moment.digits_of y -> (1000 <= y <= 9999)%N ->
  (In (Js.trim (Js.toLowerCase s)) ["set"; "setiembre"; "septiembre"; "sep"] ->
   getDate day (Str s) year =
   Ok (if (1 <=? Z.of_nat n) && (Z.of_nat n <=? 30)
       then Moment.UtcDay (Z.of_N y) 9 (Z.of_nat n) else Moment.Invalid)) /\
  (In (Js.trim (Js.toLowerCase s)) ["agosto"; "ago"] ->
   getDate day (Str s) year =
   Ok (if (1 <=? Z.of_nat n) && (Z.of_nat n <=? 31)
       then Moment.UtcDay (Z.of_N y) 8 (Z.of_nat n) else Moment.Invalid)).
Proof.
  intros Hday Hn Hyear Hy. split; intros Hs.
  - assert (Hp : purgeMonth (Str s) = Ok (nth 8 Moment.monthsParse "")).
    { unfold purgeMonth. simpl in Hs.
      destruct Hs as [<- | [<- | [<- | [<- | []]]]]; reflexivity. }
    exact (getDate_calendar day (Str s) year n 8 y Hday Hn ltac:(lia)
             (or_introl Hp) Hyear Hy).
  - assert (Hp : purgeMonth (Str s) = Ok (nth 7 Moment.monthsParse "")).
    { unfold purgeMonth. simpl in Hs. destruct Hs as [<- | [<- | []]]; reflexivity. }
    exact (getDate_calendar day (Str s) year n 7 y Hday Hn ltac:(lia)
             (or_introl Hp) Hyear Hy).
Qed.

End GetDateFacts.

(** ** More about the loader and the reader *)

Section CurrencyDayMore.

Import CurrencyDay.

Lemma max_date_cons (r : Row) (table : list Row) :
  max_date (r :: table) = later (row_date r) (max_date table).
Proof. unfold max_date, later. simpl. by destruct (row_date r). Qed.



Lemma max_date_None (table : list Row) :
  max_date table = None <-> forall r, r ∈ table -> row_date r = None.
Proof.
  induction table as [|r table IH]; [by split; [intros _ r' H; inversion H|]|].
  rewrite max_date_cons. split.
  - intros H r' Hin. destruct (row_date r) eqn:Er, (max_date table) eqn:Em; try done.
    apply elem_of_cons in Hin as [-> | Hin]; [done|]. by apply IH.
  - intros H. rewrite (H r) by left. simpl. apply IH. intros r' Hin. apply H. by right.
Qed.

Lemma max_date_upper (table : list Row) (m : Z) :
  max_date table = Some m ->
  forall r t, r ∈ table -> row_date r = Some t -> t <= m.
Proof.
  revert m. induction table as [|r0 table IH]; intros m Hm r t Hin Ht;
    [inversion Hin|].
  rewrite max_date_cons in Hm. apply elem_of_cons in Hin as [-> | Hin].
  - rewrite Ht in Hm. destruct (max_date table); injection Hm as <-; lia.
  - destruct (max_date table) as [m'|] eqn:Em.
    + specialize (IH m' eq_refl r t Hin Ht).
      destruct (row_date r0); simpl in Hm; injection Hm as <-; lia.
    + rewrite max_date_None in Em. rewrite (Em r Hin) in Ht. done.
Qed.

Lemma max_date_attained (table : list Row) (m : Z) :
  max_date table = Some m -> exists r, r ∈ table /\ row_date r = Some m.
Proof.
  revert m. induction table as [|r0 table IH]; intros m Hm; [done|].
  rewrite max_date_cons in Hm.
  destruct (row_date r0) as [a|] eqn:Er, (max_date table) as [m'|] eqn:Em;
    simpl in Hm; try done; injection Hm as <-.
  - destruct (Z.max_spec a m') as [[_ ->] | [_ ->]].
    + destruct (IH m' eq_refl) as (r & Hin & Hr). exists r. split; [by right|done].
    + exists r0. split; [by left|done].
  - exists r0. split; [by left|done].
  - destruct (IH m' eq_refl) as (r & Hin & Hr). exists r. split; [by right|done].
Qed.

Lemma getLastDate_max_date (db : Db) :
  failure db = None -> getLastDate db = Ok (max_date (currencyDay db)).
Proof. unfold getLastDate, query_max_date. by intros ->. Qed.

(** X9. On a store that answers, [getLastDate] returns the latest date
    of the table: a date some row has and no row exceeds; it returns
    [null] exactly when no row has a date. *)
Theorem getLastDate_is_the_latest (db : Db) :
  failure db = None ->
  exists lastDate, getLastDate db = Ok lastDate /\
    match lastDate with
    | Some m =>
        (exists r, r ∈ currencyDay db /\ row_date r = Some m) /\
        forall r t, r ∈ currencyDay db -> row_date r = Some t -> t <= m
    | None => forall r, r ∈ currencyDay db -> row_date r = None
    end.
Proof.
  intros Hok. exists (max_date (currencyDay db)).
  split; [by apply getLastDate_max_date|].
  destruct (max_date (currencyDay db)) as [m|] eqn:E.
  - split; [by apply max_date_attained|by apply max_date_upper].
  - by apply max_date_None.
Qed.

Lemma rates_member (table : list Row) (asked : Z) (r : Row) :
  r ∈ List.filter (dated (max_date (List.filter (on_or_before asked) table))) table <->
  r ∈ table /\
  exists t, row_date r = Some t /\ t <= asked /\
    forall r' t', r' ∈ table -> row_date r' = Some t' -> t' <= asked -> t' <= t.
Proof.
  set (sel := List.filter (on_or_before asked) table).
  assert (Hsel : forall x, x ∈ sel <->
            x ∈ table /\ exists t, row_date x = Some t /\ t <= asked).
  { intros x. unfold sel. rewrite !list_elem_of_In, filter_In. unfold on_or_before.
    split.
    - intros [Hin H]. split; [done|]. destruct (row_date x) as [t|]; [|done].
      exists t. split; [done|lia].
    - intros [Hin (t & -> & Ht)]. split; [done|]. lia. }
  rewrite list_elem_of_In, filter_In, <- list_elem_of_In. unfold dated. split.
  - intros [Hin H]. split; [done|].
    destruct (row_date r) as [t|] eqn:Er; [|done].
    destruct (max_date sel) as [m|] eqn:Em; [|done].
    apply Z.eqb_eq in H. subst m. exists t. split; [done|].
    destruct (max_date_attained _ _ Em) as (r0 & Hin0 & Hr0).
    apply Hsel in Hin0 as [_ (t0 & Ht0 & Hle)]. split; [congruence|].
    intros r' t' Hin' Hr' Hle'. apply (max_date_upper _ _ Em r'); [|done].
    apply Hsel. eauto.
  - intros [Hin (t & Hr & Hle & Hmax)]. split; [done|]. rewrite Hr.
    assert (Hrsel : r ∈ sel) by (apply Hsel; eauto).
    destruct (max_date sel) as [m|] eqn:Em.
    + apply Z.eqb_eq. pose proof (max_date_upper _ _ Em r t Hrsel Hr).
      destruct (max_date_attained _ _ Em) as (r0 & Hin0 & Hr0).
      apply Hsel in Hin0 as [Hin0 (t0 & Ht0 & Hle0)].
      assert (t0 = m) by congruence. subst t0.
      specialize (Hmax r0 m Hin0 Hr0 Hle0). lia.
    + rewrite max_date_None in Em. rewrite (Em r Hrsel) in Hr. done.
Qed.

Lemma getRatesFromDate_filter (asked : Z) (db : Db) :
  failure db = None ->
  getRatesFromDate asked db =
  Ok (List.filter
        (dated (max_date (List.filter (on_or_before asked) (currencyDay db))))
        (currencyDay db)).
Proof. unfold getRatesFromDate, query_rates. by intros ->. Qed.

(** X10. On a store that answers, [getRatesFromDate] returns the rows
    of one date: the latest date of the table that is not after the
    date asked for. It returns every row of that date and no other row,
    and it returns none exactly when every dated row is after the date
    asked for. *)
Theorem getRatesFromDate_latest_on_or_before (asked : Z) (db : Db) :
  failure db = None ->
  exists rates, getRatesFromDate asked db = Ok rates /\
    (forall r, r ∈ rates <->
       r ∈ currencyDay db /\
       exists t, row_date r = Some t /\ t <= asked /\
         forall r' t', r' ∈ currencyDay db -> row_date r' = Some t' ->
                       t' <= asked -> t' <= t) /\
    (rates = [] <->
     forall r t, r ∈ currencyDay db -> row_date r = Some t -> asked < t).
Proof.
  intros Hok. eexists. split; [by apply getRatesFromDate_filter|].
  split; [apply rates_member|].
  set (rates := List.filter _ _).
  assert (Hmem := rates_member (currencyDay db) asked). fold rates in Hmem.
  split.
  - intros Hnil r t Hin Hr. destruct (Z.lt_ge_cases asked t) as [|Hle]; [done|].
    exfalso.
    set (sel := List.filter (on_or_before asked) (currencyDay db)).
    assert (Hrsel : r ∈ sel).
    { unfold sel. rewrite list_elem_of_In, filter_In, <- list_elem_of_In.
      split; [done|]. unfold on_or_before. rewrite Hr. lia. }
    destruct (max_date sel) as [m|] eqn:Em.
    + destruct (max_date_attained _ _ Em) as (r0 & Hin0 & Hr0).
      assert (H0 : r0 ∈ rates).
      { unfold rates. fold sel. rewrite Em.
        rewrite list_elem_of_In, filter_In, <- list_elem_of_In. split.
        - unfold sel in Hin0. rewrite list_elem_of_In, filter_In in Hin0.
          apply list_elem_of_In. tauto.
        - unfold dated. rewrite Hr0. lia. }
      rewrite Hnil in H0. inversion H0.
    + rewrite max_date_None in Em. rewrite (Em r Hrsel) in Hr. done.
  - intros Hall. destruct rates as [|r rs] eqn:E; [done|]. exfalso.
    assert (Hin : r ∈ r :: rs) by left.
    apply Hmem in Hin as [Hin (t & Hr & Hle & _)].
    specialize (Hall r t Hin Hr). lia.
Qed.

Lemma elem_of_inserts_of (ds : list Day) (r : Row) :
  r ∈ inserts_of ds <->
  exists day cur, day ∈ ds /\ cur ∈ currencies day /\ r = insert_row day cur.
Proof.
  unfold inserts_of. rewrite list_elem_of_In, in_flat_map. split.
  - intros (day & Hday & Hr). apply list_elem_of_In, list_elem_of_fmap in Hr
      as (cur & -> & Hcur).
    exists day, cur. by rewrite list_elem_of_In.
  - intros (day & cur & Hday & Hcur & ->). exists day.
    rewrite <- !list_elem_of_In. split; [done|]. apply list_elem_of_fmap. eauto.
Qed.

Lemma inserts_of_app (a b : list Day) :
  inserts_of (a ++ b) = (inserts_of a ++ inserts_of b)%list.
Proof. unfold inserts_of. apply flat_map_app. Qed.

Lemma insertDays_Ok (ds : list Day) (db db' : Db) (n : Z) :
  insertDays (ArrayOfDays ds) db = (Ok n, db') ->
  n = Z.of_nat (length (inserts_of ds)) /\
  currencyDay db' = (currencyDay db ++ inserts_of ds)%list /\
  failure db' = failure db /\
  (inserts_of ds <> [] -> failure db = None).
Proof.
  destruct ds as [|day ds].
  - intros [= <- <-]. simpl. by rewrite app_nil_r.
  - unfold insertDays, query_insert.
    destruct (failure db) eqn:Ef; [done|].
    destruct (inserts_of (day :: ds)) eqn:Ei; [done|].
    intros [= <- <-]. done.
Qed.

(** X11. What [insertDays] sends, whatever the days hold: one row for
    each currency of each day, in the order of the days, with the day's
    date on each of its rows; a day without a date gives rows without a
    date and a day without currencies gives no row. On a store that
    takes the statement the table gains these rows and their number is
    returned; on a store that fails the store's error is handed on and
    the table is as it was. *)
Theorem insertDays_rows_of_any_days (ds : list Day) (db : Db) :
  (inserts_of ds <> [] -> failure db = None ->
   insertDays (ArrayOfDays ds) db =
     (Ok (Z.of_nat (length (inserts_of ds))),
      {| currencyDay := currencyDay db ++ inserts_of ds; failure := None;
         writes := writes db ++ [inserts_of ds] |})) /\
  (forall e, ds <> [] -> failure db = Some e ->
     exists db', insertDays (ArrayOfDays ds) db = (Throw (Js.StoreError e), db') /\
       currencyDay db' = currencyDay db) /\
  (forall r, r ∈ inserts_of ds <->
     exists day cur, day ∈ ds /\ cur ∈ currencies day /\
       row_iso r = iso cur /\ row_date r = date day /\
       row_buy r = buy cur /\ row_sell r = sell cur) /\
  length (inserts_of ds) = sum_list (length ∘ currencies <$> ds) /\
  forall ds', inserts_of (ds ++ ds') = (inserts_of ds ++ inserts_of ds')%list.
Proof.
  split; [|split; [|split; [|split]]].
  - intros Hne Hok. destruct ds as [|day ds]; [done|].
    unfold insertDays, query_insert. rewrite Hok.
    by destruct (inserts_of (day :: ds)).
  - intros e Hne He. destruct ds as [|day ds]; [done|].
    unfold insertDays, query_insert. rewrite He. eexists. split; [reflexivity|done].
  - intros r. rewrite elem_of_inserts_of. split.
    + intros (day & cur & Hd & Hc & ->). exists day, cur. done.
    + intros (day & cur & Hd & Hc & H1 & H2 & H3 & H4). exists day, cur.
      split; [done|]. split; [done|]. destruct r. simpl in *. by subst.
  - induction ds as [|day ds IH]; [done|].
    rewrite inserts_of_cons, length_app, length_fmap, IH. done.
  - intros ds'. apply inserts_of_app.
Qed.

(** X12. What is inserted can be read back: after [insertDays] has
    returned, [getLastDate] gives a date that is not before any date
    inserted nor before the last date of before, and [getRatesFromDate]
    asked for the date of an inserted day returns each row of that
    day. *)
Theorem insertDays_then_read (ds : list Day) (db db' : Db) (n : Z) :
  insertDays (ArrayOfDays ds) db = (Ok n, db') ->
  n = Z.of_nat (length (inserts_of ds)) /\
  currencyDay db' = (currencyDay db ++ inserts_of ds)%list /\
  forall day cur t, day ∈ ds -> cur ∈ currencies day -> date day = Some t ->
    (exists m, getLastDate db' = Ok (Some m) /\ t <= m /\
       forall m0, getLastDate db = Ok (Some m0) -> m0 <= m) /\
    (exists rates, getRatesFromDate t db' = Ok rates /\ insert_row day cur ∈ rates).
Proof.
  intros H. apply insertDays_Ok in H as (Hn & Htable & Hfail & Hok).
  split; [done|]. split; [done|]. intros day cur t Hday Hcur Ht.
  assert (Hrow : insert_row day cur ∈ inserts_of ds)
    by (apply elem_of_inserts_of; eauto).
  assert (Hne : inserts_of ds <> []) by (intros E; rewrite E in Hrow; inversion Hrow).
  specialize (Hok Hne). assert (Hok' : failure db' = None) by congruence.
  assert (Hrow' : insert_row day cur ∈ currencyDay db')
    by (rewrite Htable, elem_of_app; by right).
  split.
  - rewrite (getLastDate_max_date db' Hok'), (getLastDate_max_date db Hok).
    destruct (max_date (currencyDay db')) as [m|] eqn:Em.
    + exists m. split; [done|]. split.
      * by apply (max_date_upper _ _ Em (insert_row day cur)).
      * intros m0 [= E0]. destruct (max_date_attained _ _ E0) as (r0 & Hin0 & Hr0).
        apply (max_date_upper _ _ Em r0); [|done].
        rewrite Htable, elem_of_app. by left.
    + rewrite max_date_None in Em. specialize (Em _ Hrow'). simpl in Em. congruence.
  - eexists. split; [by apply getRatesFromDate_filter|].
    apply rates_member. split; [done|]. exists t. split; [done|]. split; [lia|].
    intros r' t' _ _ Hle. done.
Qed.

End CurrencyDayMore.

(** ** The download *)

Lemma downloadFile_snoc (events : list ResponseEvent) (ev : ResponseEvent) :
  downloadFile (events ++ [ev]) = on_event (downloadFile events) ev.
Proof. unfold downloadFile. by rewrite foldl_app. Qed.

Lemma chunks_of_snoc (events : list ResponseEvent) (ev : ResponseEvent) :
  chunks_of (events ++ [ev]) =
  (chunks_of events ++ match ev with OnData chunk => [chunk] | _ => [] end)%list.
Proof. unfold chunks_of. rewrite flat_map_app. simpl. by rewrite app_nil_r. Qed.

Lemma downloadFile_buffers (events : list ResponseEvent) :
  buffers (downloadFile events) = chunks_of events /\
  fileSize (downloadFile events) = length (concat (chunks_of events)).
Proof.
  induction events as [|ev events [IHb IHs]] using rev_ind; [done|].
  rewrite downloadFile_snoc, chunks_of_snoc.
  destruct ev as [chunk|err|]; simpl; rewrite ?app_nil_r; try done.
  rewrite IHb, IHs. split; [done|].
  by rewrite concat_app, !length_app; simpl; rewrite app_nil_r.
Qed.

Lemma chunks_of_data (chunks : list (list Byte.byte)) :
  chunks_of (OnData <$> chunks) = chunks.
Proof.
  unfold chunks_of. induction chunks as [|c chunks IH]; [done|]. simpl. by f_equal.
Qed.

Lemma calls_of_data (chunks : list (list Byte.byte)) :
  calls (downloadFile (OnData <$> chunks)) = [].
Proof.
  induction chunks as [|c chunks IH] using rev_ind; [done|].
  rewrite fmap_app. simpl. by rewrite downloadFile_snoc.
Qed.

(** X13. [downloadFile] loses no byte and keeps the order: whenever the
    response ends, the callback is handed the concatenation of the
    chunks received up to then, and [fileSize] is the number of bytes
    handed over. The progress timer is cleared by the end of the response
    and by nothing else, so it is still set after an error. *)
Theorem downloadFile_hands_over_all_chunks (events : list ResponseEvent) :
  calls (downloadFile (events ++ [OnEnd])) =
    (calls (downloadFile events) ++ [Ok (concat (chunks_of events))])%list /\
  fileSize (downloadFile events) = length (concat (chunks_of events)) /\
  (forall chunks : list (list Byte.byte),
     calls (downloadFile ((OnData <$> chunks) ++ [OnEnd])) = [Ok (concat chunks)]) /\
  (progressInterval (downloadFile events) = false <-> OnEnd ∈ events).
Proof.
  destruct (downloadFile_buffers events) as [Hb Hs].
  split; [|split; [done|split]].
  - rewrite downloadFile_snoc. simpl. by rewrite Hb.
  - intros chunks. rewrite downloadFile_snoc. simpl.
    destruct (downloadFile_buffers (OnData <$> chunks)) as [Hb' _]. rewrite Hb'.
    by rewrite chunks_of_data, calls_of_data.
  - induction events as [|ev events IH] using rev_ind.
    + split; [done|]. intros H. inversion H.
    + rewrite downloadFile_snoc, elem_of_app, list_elem_of_singleton.
      destruct (downloadFile_buffers events) as [Hb0 Hs0].
      specialize (IH Hb0 Hs0).
      destruct ev; simpl; rewrite ?IH; split; auto; intros [H | H]; done.
Qed.

(** ** More about the aggregator *)

Section AggregatorFacts.

Variable now : Moment.Today.
Variable COL : Columns.
Variable CURR : Currencies.

Local Abbreviation getDate := (getDate now).
Local Abbreviation currency := (currency).
Local Abbreviation makeDay := (makeDay COL CURR).
Local Abbreviation iteration := (iteration now COL CURR).
Local Abbreviation loop := (loop now COL CURR).
Local Abbreviation makeArrayOfDays := (makeArrayOfDays now COL CURR).
Local Abbreviation carry := (carry COL).
Local Abbreviation context_at := (context_at COL).
Local Abbreviation resolve := (resolve now COL).
Local Abbreviation stores := (stores now COL CURR).
Local Abbreviation last_stores := (last_stores now COL CURR).

(** *** Exceptions *)

Lemma bind_type_error {A B} (r : result A) (k : A -> result B) :
  (forall e, r = Throw e -> type_error e) ->
  (forall a e, k a = Throw e -> type_error e) ->
  forall e, r ≫= k = Throw e -> type_error e.
Proof. intros Hr Hk e. destruct r as [a|e']; simpl; [apply Hk|]. intros [= <-]. by apply Hr. Qed.

Lemma getValue_type_error v e : getValue v = Throw e -> type_error e.
Proof.
  unfold getValue. destruct (RegExp.test _ _), v; intros [= <-]; by eexists.
Qed.

Lemma currency_type_error code line b s e :
  currency code line b s = Throw e -> type_error e.
Proof.
  unfold Seed.currency. apply bind_type_error; [apply getValue_type_error|].
  intros vb. apply bind_type_error; [apply getValue_type_error|]. done.
Qed.

Lemma makeDay_type_error d line e : makeDay d line = Throw e -> type_error e.
Proof.
  unfold Seed.makeDay.
  repeat (apply bind_type_error; [apply currency_type_error|intros ?]). done.
Qed.

Lemma getDate_type_error day month year e :
  getDate day month year = Throw e -> type_error e.
Proof.
  intros H. destruct (getDate_result now day month year) as [[d Hd] | Ht].
  - congruence.
  - rewrite Ht in H. injection H as <-. by eexists.
Qed.

Lemma iteration_type_error lastDate st line e :
  iteration lastDate st line = Throw e -> type_error e.
Proof.
  unfold Seed.iteration. apply bind_type_error; [apply getDate_type_error|].
  intros d e'. destruct (Moment.isSameOrBefore d lastDate); [done|].
  apply bind_type_error; [apply makeDay_type_error|done].
Qed.

Lemma loop_type_error lastDate lines : forall st e,
  loop lastDate st lines = Throw e -> type_error e.
Proof.
  induction lines as [|line lines IH]; intros st e; [done|]. simpl.
  apply bind_type_error; [apply iteration_type_error|]. intros st'. apply IH.
Qed.

Lemma makeArrayOfDays_type_error lastDate lines e :
  makeArrayOfDays lastDate lines = Throw e -> type_error e.
Proof.
  unfold Seed.makeArrayOfDays. apply bind_type_error; [apply loop_type_error|done].
Qed.

Lemma makeArrayOfDays_Ok_iff lastDate lines :
  (exists ds, makeArrayOfDays lastDate lines = Ok ds) <->
  forall i line, lines !! i = Some line ->
    exists d, resolve lines i = Ok d /\
      (Moment.isSameOrBefore d lastDate = false -> exists day, makeDay d line = Ok day).
Proof.
  split.
  - intros [ds H]. apply makeArrayOfDays_Ok in H as (st & Hst & _).
    by apply (loop_rows now COL CURR lastDate lines st).
  - intros H. destruct (loop_total now COL CURR lastDate lines H) as [st Hst].
    exists (days st). apply makeArrayOfDays_Ok. eauto.
Qed.

(** X14. [makeArrayOfDays] is all or nothing. It returns exactly when
    every line has a date, valid or not, and every line that is not
    dropped has its eight quotes read; otherwise it throws a [TypeError],
    and no day is handed over. *)
Theorem makeArrayOfDays_all_or_nothing lastDate lines :
  ((exists ds, makeArrayOfDays lastDate lines = Ok ds) <->
   forall i line, lines !! i = Some line ->
     exists d, resolve lines i = Ok d /\
       (Moment.isSameOrBefore d lastDate = false ->
        exists day, makeDay d line = Ok day)) /\
  (forall e, makeArrayOfDays lastDate lines = Throw e ->
     exists what, e = Js.TypeError what) /\
  ((exists ds, makeArrayOfDays lastDate lines = Ok ds) \/
   exists what, makeArrayOfDays lastDate lines = Throw (Js.TypeError what)).
Proof.
  split; [apply makeArrayOfDays_Ok_iff|]. split; [apply makeArrayOfDays_type_error|].
  destruct (makeArrayOfDays lastDate lines) as [ds|e] eqn:E; [eauto|].
  right. destruct (makeArrayOfDays_type_error _ _ _ E) as [what ->]. eauto.
Qed.

Lemma getDate_not_text day month year :
  (forall s, month <> Str s) -> exists e, getDate day month year = Throw e.
Proof.
  intros H. unfold Seed.getDate, purgeMonth.
  destruct month as [| |s]; [by eexists..|]. by destruct (H s).
Qed.

(** X15. A line that has no month text to go by stops the run: when
    the month carried to a line is not a string, because no line so far
    has a month or because the cell holds a number, [makeArrayOfDays]
    throws a [TypeError], whatever the last date and whatever the other
    lines. A first line without a month is such a line. *)
Theorem line_without_month_text_aborts lastDate :
  (forall lines i line,
     lines !! i = Some line -> (forall s, (context_at lines i).1 <> Str s) ->
     exists what, makeArrayOfDays lastDate lines = Throw (Js.TypeError what)) /\
  (forall first rest,
     Js.truthy (Js.index first (MONTH COL)) = false ->
     exists what, makeArrayOfDays lastDate (first :: rest) = Throw (Js.TypeError what)).
Proof.
  assert (H : forall lines i line,
     lines !! i = Some line -> (forall s, (context_at lines i).1 <> Str s) ->
     exists what, makeArrayOfDays lastDate lines = Throw (Js.TypeError what)).
  { intros lines i line Hi Hm.
    destruct (makeArrayOfDays lastDate lines) as [ds|e] eqn:E.
    - assert (H : exists ds, makeArrayOfDays lastDate lines = Ok ds) by eauto.
      rewrite makeArrayOfDays_Ok_iff in H. destruct (H i line Hi) as (d & Hd & _).
      destruct (getDate_not_text (Js.index (nth i lines []) (DAY COL))
                  (context_at lines i).1 (context_at lines i).2 Hm) as [e He].
      unfold Seed.resolve in Hd. congruence.
    - destruct (makeArrayOfDays_type_error _ _ _ E) as [what ->]. eauto. }
  split; [exact H|]. intros first rest Hf. apply (H (first :: rest) 0%nat first eq_refl).
  intros s. rewrite (context_at_step COL (first :: rest) 0 first eq_refl). simpl.
  by rewrite or_falsy.
Qed.

(** *** The days returned *)

Lemma currency_Ok code line b s c :
  currency code line b s = Ok c ->
  exists vb vs, getValue (Js.index line b) = Ok vb /\
    getValue (Js.index line s) = Ok vs /\ c = {| iso := code; buy := vb; sell := vs |}.
Proof.
  unfold Seed.currency. intros H.
  apply bind_Ok in H as (vb & Hb & H). apply bind_Ok in H as (vs & Hs & H).
  injection H as <-. eauto.
Qed.

Lemma makeDay_inv d line day :
  makeDay d line = Ok day ->
  exists usd ars brl eur,
    currency (USD CURR) line (USD_BUY COL) (USD_SELL COL) = Ok usd /\
    currency (ARS CURR) line (ARS_BUY COL) (ARS_SELL COL) = Ok ars /\
    currency (BRL CURR) line (BRL_BUY COL) (BRL_SELL COL) = Ok brl /\
    currency (EUR CURR) line (EUR_BUY COL) (EUR_SELL COL) = Ok eur /\
    day = {| date := Moment.toDate d; currencies := [usd; ars; brl; eur] |}.
Proof.
  unfold Seed.makeDay. intros H.
  apply bind_Ok in H as (usd & Husd & H). apply bind_Ok in H as (ars & Hars & H).
  apply bind_Ok in H as (brl & Hbrl & H). apply bind_Ok in H as (eur & Heur & H).
  injection H as <-. exists usd, ars, brl, eur. done.
Qed.

Lemma getValue_Some v out :
  getValue v = Ok (Some out) ->
  valid_quote out /\ exists dec, decimal out = Some dec.
Proof.
  intros H. destruct v as [|r|s].
  - by vm_compute in H.
  - unfold getValue in H. by destruct (RegExp.test _ _).
  - destruct (getValue_normal_form_aux s out H) as (Hv & _ & _). split; [done|].
    rewrite getValue_Str in H. destruct (RegExp.test _ _) eqn:E; [|done].
    injection H as <-. apply decimal_of_valid_quote. by apply FLOAT_REGEX_valid_quote.
Qed.

Lemma currency_quotes code line b s c :
  currency code line b s = Ok c ->
  iso c = code /\
  (forall v, buy c = Some v -> valid_quote v /\ exists dec, decimal v = Some dec) /\
  (forall v, sell c = Some v -> valid_quote v /\ exists dec, decimal v = Some dec).
Proof.
  intros H. apply currency_Ok in H as (vb & vs & Hb & Hs & ->). simpl.
  split; [done|]. split; intros v ->; by eapply getValue_Some.
Qed.

(** X16. Every day returned has the four currencies, in the order
    USD, ARS, BRL, EUR, and each of its quotes is [null] or a valid
    quote that reads as a decimal. *)
Theorem every_day_has_four_currencies lastDate lines ds key day :
  makeArrayOfDays lastDate lines = Ok ds -> ds !! key = Some day ->
  iso <$> currencies day = [USD CURR; ARS CURR; BRL CURR; EUR CURR] /\
  forall cur, cur ∈ currencies day ->
    (forall v, buy cur = Some v -> valid_quote v /\ exists dec, decimal v = Some dec) /\
    (forall v, sell cur = Some v -> valid_quote v /\ exists dec, decimal v = Some dec).
Proof.
  intros Hds Hkey.
  destruct (entry_row now COL CURR _ _ _ _ _ Hds Hkey) as (j & line & d & _ & _ & _ & _ & Hday & _).
  apply makeDay_inv in Hday as (usd & ars & brl & eur & H1 & H2 & H3 & H4 & ->).
  apply currency_quotes in H1 as (I1 & Q1), H2 as (I2 & Q2), H3 as (I3 & Q3),
    H4 as (I4 & Q4).
  simpl. split; [by rewrite I1, I2, I3, I4|].
  intros cur Hin. repeat (apply elem_of_cons in Hin as [-> | Hin]; [done|]).
  inversion Hin.
Qed.

Lemma loop_size lastDate lines : forall st st',
  loop lastDate st lines = Ok st' ->
  (size (days st') <= size (days st) + length lines)%nat.
Proof.
  induction lines as [|line lines IH]; intros st st' H.
  - injection H as <-. simpl. lia.
  - simpl in H. apply bind_Ok in H as (st1 & H1 & H). specialize (IH _ _ H).
    apply iteration_Ok in H1 as (d & _ & _ & Hd).
    assert (size (days st1) <= S (size (days st)))%nat.
    { destruct (Moment.isSameOrBefore d lastDate).
      - rewrite Hd. lia.
      - destruct Hd as (day & _ & ->). rewrite map_size_insert.
        destruct (days st !! _); simpl; lia. }
    simpl. lia.
Qed.

(** X17. The days returned are keyed by their date: the key of a day is
    its date as [format('L')] writes it, two days with the same date are
    one entry, and there are no more days than lines. *)
Theorem days_are_keyed_by_date lastDate lines ds :
  makeArrayOfDays lastDate lines = Ok ds ->
  (forall key day, ds !! key = Some day ->
     exists d, Moment.calendar d /\ key = Moment.format_L d /\
               date day = Moment.toDate d) /\
  (forall key1 key2 day1 day2,
     ds !! key1 = Some day1 -> ds !! key2 = Some day2 ->
     date day1 = date day2 -> key1 = key2 /\ day1 = day2) /\
  (size ds <= length lines)%nat.
Proof.
  intros Hds.
  assert (Hkey : forall key day, ds !! key = Some day ->
            exists d, Moment.calendar d /\ key = Moment.format_L d /\
                      date day = Moment.toDate d).
  { intros key day H.
    destruct (entry_row now COL CURR _ _ _ _ _ Hds H)
      as (j & line & d & _ & Hd & _ & Hk & _ & Hdate).
    exists d. split; [|done]. by apply (resolve_calendar now COL lines j). }
  split; [done|]. split.
  - intros key1 key2 day1 day2 H1 H2 Hsame.
    destruct (Hkey _ _ H1) as (d1 & C1 & -> & D1).
    destruct (Hkey _ _ H2) as (d2 & C2 & -> & D2).
    assert (d1 = d2) as -> by (apply MomentFacts.valueOf_inj; unfold Moment.toDate in *;
                              congruence).
    split; congruence.
  - apply makeArrayOfDays_Ok in Hds as (st & Hst & <-).
    apply loop_size in Hst. unfold start in Hst. simpl in Hst.
    rewrite map_size_empty in Hst. lia.
Qed.

(** *** The last date as a filter *)

Lemma after_isSameOrBefore d D day :
  date day = Moment.toDate d ->
  after D day = negb (Moment.isSameOrBefore d (Some D)).
Proof.
  unfold after, Moment.isSameOrBefore, Moment.toDate. intros ->.
  destruct (Moment.valueOf d) as [t|]; [|done].
  destruct (Z.ltb_spec D t), (Z.eqb_spec t D), (Z.ltb_spec t D); simpl; try done; lia.
Qed.

Lemma stores_filter D lines j key day :
  stores (Some D) lines j key day <->
  stores None lines j key day /\ after D day = true.
Proof.
  unfold Seed.stores. split.
  - intros (line & d & Hj & Hd & Hb & Hk & Hday). split.
    + exists line, d. repeat split; try done. apply isSameOrBefore_null.
    + rewrite (after_isSameOrBefore d) by by eapply makeDay_date. by rewrite Hb.
  - intros [(line & d & Hj & Hd & _ & Hk & Hday) Ha].
    exists line, d. repeat split; try done.
    rewrite (after_isSameOrBefore d) in Ha by by eapply makeDay_date.
    by destruct (Moment.isSameOrBefore d (Some D)).
Qed.

Lemma stores_same_date lastDate lastDate' lines j k key day day' :
  stores lastDate lines j key day -> stores lastDate' lines k key day' ->
  date day = date day'.
Proof.
  intros (line & d & _ & Hd & _ & Hk & Hday) (line' & d' & _ & Hd' & _ & Hk' & Hday').
  apply makeDay_date in Hday, Hday'. rewrite Hday, Hday'.
  assert (d = d') as -> by (apply MomentFacts.format_L_inj;
    [by eapply resolve_calendar|by eapply resolve_calendar|congruence]).
  done.
Qed.

Lemma last_stores_filter D lines key day :
  last_stores (Some D) lines key day <->
  last_stores None lines key day /\ after D day = true.
Proof.
  unfold Seed.last_stores. split.
  - intros (j & Hj & Hlast). pose proof Hj as Hj'.
    apply stores_filter in Hj' as [Hj0 Ha]. split; [|done].
    exists j. split; [done|]. intros k day' Hk Hs.
    apply (Hlast k day' Hk). apply stores_filter. split; [done|].
    unfold after in *. by rewrite <- (stores_same_date _ _ _ _ _ _ _ _ Hj Hs).
  - intros [(j & Hj & Hlast) Ha]. exists j. split; [by apply stores_filter|].
    intros k day' Hk Hs. apply stores_filter in Hs as [Hs _]. by apply (Hlast k day').
Qed.

(** X18. The last date only filters: what [makeArrayOfDays] returns for a
    last date [D] is what it returns for no last date at all, less the
    days dated [D] or before. Days without a date, the invalid ones,
    stay. *)
Theorem last_date_only_filters (D : Z) lines ds_all ds :
  makeArrayOfDays None lines = Ok ds_all ->
  makeArrayOfDays (Some D) lines = Ok ds ->
  ds = filter (fun entry : string * Day => after D entry.2 = true) ds_all.
Proof.
  intros Hall Hds. apply makeArrayOfDays_Ok in Hall as (st0 & Hst0 & <-).
  apply makeArrayOfDays_Ok in Hds as (st & Hst & <-).
  apply map_eq. intros key. apply option_eq. intros day.
  rewrite map_lookup_filter_Some, (loop_days now COL CURR _ _ _ Hst),
    (loop_days now COL CURR _ _ _ Hst0).
  apply last_stores_filter.
Qed.




(** *** The month and the year, each on its own *)

Lemma context_at_cell_month lines : forall n i line_i,
  lines !! i = Some line_i -> is_Some (lines !! (i + n)%nat) ->
  Js.truthy (Js.index line_i (MONTH COL)) = true ->
  (forall k line_k, (i < k <= i + n)%nat -> lines !! k = Some line_k ->
     Js.truthy (Js.index line_k (MONTH COL)) = false) ->
  (context_at lines (i + n)).1 = Js.index line_i (MONTH COL).
Proof.
  induction n as [|n IH]; intros i line_i Hi Hj Ht Hblank.
  - rewrite Nat.add_0_r, (context_at_step COL lines i line_i Hi). simpl.
    by apply or_truthy.
  - destruct Hj as [line_j Hj]. replace (i + S n)%nat with (S (i + n)) in * by lia.
    rewrite (context_at_S COL lines (i + n) line_j Hj). simpl.
    rewrite or_falsy by (apply (Hblank (S (i + n))); [lia|done]).
    apply IH; try done.
    + apply lookup_lt_is_Some. apply lookup_lt_Some in Hj. lia.
    + intros k line_k Hk. apply Hblank. lia.
Qed.

Lemma context_at_cell_year lines : forall n i line_i,
  lines !! i = Some line_i -> is_Some (lines !! (i + n)%nat) ->
  Js.truthy (Js.index line_i (YEAR COL)) = true ->
  (forall k line_k, (i < k <= i + n)%nat -> lines !! k = Some line_k ->
     Js.truthy (Js.index line_k (YEAR COL)) = false) ->
  (context_at lines (i + n)).2 = Js.index line_i (YEAR COL).
Proof.
  induction n as [|n IH]; intros i line_i Hi Hj Ht Hblank.
  - rewrite Nat.add_0_r, (context_at_step COL lines i line_i Hi). simpl.
    by apply or_truthy.
  - destruct Hj as [line_j Hj]. replace (i + S n)%nat with (S (i + n)) in * by lia.
    rewrite (context_at_S COL lines (i + n) line_j Hj). simpl.
    rewrite or_falsy by (apply (Hblank (S (i + n))); [lia|done]).
    apply IH; try done.
    + apply lookup_lt_is_Some. apply lookup_lt_Some in Hj. lia.
    + intros k line_k Hk. apply Hblank. lia.
Qed.

(** X20. The month and the year are carried each on its own: the month
    of a line is the month cell of the nearest line, itself or above,
    whose month cell is truthy, and the year is the year cell of the
    nearest line whose year cell is truthy; the two lines need not be the
    same. *)
Theorem month_and_year_carried_separately lines i_month i_year j line_month line_year :
  (i_month <= j)%nat -> (i_year <= j)%nat -> (j < length lines)%nat ->
  lines !! i_month = Some line_month -> lines !! i_year = Some line_year ->
  Js.truthy (Js.index line_month (MONTH COL)) = true ->
  Js.truthy (Js.index line_year (YEAR COL)) = true ->
  (forall k line_k, (i_month < k <= j)%nat -> lines !! k = Some line_k ->
     Js.truthy (Js.index line_k (MONTH COL)) = false) ->
  (forall k line_k, (i_year < k <= j)%nat -> lines !! k = Some line_k ->
     Js.truthy (Js.index line_k (YEAR COL)) = false) ->
  context_at lines j =
    (Js.index line_month (MONTH COL), Js.index line_year (YEAR COL)) /\
  resolve lines j =
    getDate (Js.index (nth j lines []) (DAY COL))
      (Js.index line_month (MONTH COL)) (Js.index line_year (YEAR COL)).
Proof.
  intros Hm Hy Hj Hlm Hly Htm Hty Hbm Hby.
  assert (Hsome : is_Some (lines !! j)) by by apply lookup_lt_is_Some.
  assert (H1 : (context_at lines j).1 = Js.index line_month (MONTH COL)).
  { replace j with (i_month + (j - i_month))%nat in * by lia.
    by apply context_at_cell_month. }
  assert (H2 : (context_at lines j).2 = Js.index line_year (YEAR COL)).
  { replace j with (i_year + (j - i_year))%nat in * by lia.
    by apply context_at_cell_year. }
  split.
  - destruct (context_at lines j). simpl in *. congruence.
  - unfold Seed.resolve. by rewrite H1, H2.
Qed.

(** *** The cells that are read *)

Lemma iteration_same_cells lastDate st (line line' : list Value) :
  (forall c, c ∈ read_columns COL -> Js.index line c = Js.index line' c) ->
  iteration lastDate st line = iteration lastDate st line'.
Proof.
  intros H. unfold Seed.iteration, Seed.makeDay, Seed.currency.
  assert (Hin : forall c, In c (read_columns COL) ->
                          Js.index line c = Js.index line' c)
    by (intros c Hc; by apply H, list_elem_of_In).
  unfold read_columns, Seed.quote_columns in Hin. simpl in Hin.
  by rewrite !Hin by tauto.
Qed.

(** X21. [makeArrayOfDays] reads eleven cells of a line and no other:
    the day, the month, the year and the eight quotes. Two sheets that
    agree on these cells line by line give the same result, or the same
    exception. *)
Theorem only_the_named_columns_are_read lastDate (lines lines' : list (list Value)) :
  Forall2 (fun line line' =>
             forall c, c ∈ read_columns COL -> Js.index line c = Js.index line' c)
          lines lines' ->
  makeArrayOfDays lastDate lines = makeArrayOfDays lastDate lines'.
Proof.
  intros H. unfold Seed.makeArrayOfDays. f_equal. generalize start.
  induction H as [|line line' lines lines' Hline _ IH]; intros st; [done|].
  simpl. rewrite (iteration_same_cells lastDate st line line' Hline).
  destruct (iteration lastDate st line') as [st'|e]; simpl; [apply IH|done].
Qed.

(** *** Seeding twice *)



(** X23. [seed] never inserts. Whatever the sheet and the store, it
    ends with an exception and the store is as it was, with no statement
    received: the error of [getLastDate] if the store fails, the
    exception of [makeArrayOfDays] if it throws, and otherwise the
    [TypeError] of [insertDays], which is handed the object of days and
    not an array. *)
Theorem seed_never_inserts (rows : list (list Value)) (db : CurrencyDay.Db) :
  (exists e, seed now COL CURR rows db = (Throw e, db)) /\
  (forall e, CurrencyDay.getLastDate db = Throw e ->
     seed now COL CURR rows db = (Throw e, db)) /\
  (forall lastDate e,
     CurrencyDay.getLastDate db = Ok lastDate ->
     makeArrayOfDays lastDate (usefulLines rows) = Throw e ->
     seed now COL CURR rows db = (Throw e, db)) /\
  (forall lastDate ds,
     CurrencyDay.getLastDate db = Ok lastDate ->
     makeArrayOfDays lastDate (usefulLines rows) = Ok ds ->
     seed now COL CURR rows db =
       (Throw (Js.TypeError "days.forEach is not a function"), db)).
Proof.
  unfold seed. repeat split.
  - destruct (CurrencyDay.getLastDate db) as [lastDate|e]; [|eauto].
    destruct (Seed.makeArrayOfDays now COL CURR lastDate (usefulLines rows)); eauto.
  - by intros e ->.
  - by intros lastDate e -> ->.
  - by intros lastDate ds -> ->.
Qed.

End AggregatorFacts.

(** ** The further properties on the sample sheet *)

(** X2 on a sample: ["1,5"] is read as ["1.5"], which is read as
    itself. *)
Lemma getValue_normal_form_sample :
  getValue (Str "1,5") = Ok (Some "1.5") /\
  valid_quote "1.5" /\ getValue (Str "1.5") = Ok (Some "1.5").
Proof.
  assert (H : getValue (Str "1,5") = Ok (Some "1.5")) by (vm_compute; reflexivity).
  destruct (getValue_normal_form "1,5" "1.5" H) as (Hv & _ & Hn).
  split; [exact H|]. split; [exact Hv|exact Hn].
Defined.

(** X5 on a sample: the 29th of "Febrero" 2020. *)
Lemma getDate_is_the_calendar_day_sample :
  getDate Sample.today (Number "29") (Str "Febrero") (Number "2020")
  = Ok (Moment.UtcDay 2020 2 29) /\
  getDate Sample.today (Number "30") (Str "Febrero") (Number "2020")
  = Ok Moment.Invalid.
Proof.
  split.
  - exact (getDate_is_the_calendar_day Sample.today (Number "29") (Str "Febrero")
             (Number "2020") 29 1 2020 eq_refl ltac:(lia) ltac:(lia)
             (or_intror eq_refl) eq_refl ltac:(lia)).
  - exact (getDate_is_the_calendar_day Sample.today (Number "30") (Str "Febrero")
             (Number "2020") 30 1 2020 eq_refl ltac:(lia) ltac:(lia)
             (or_intror eq_refl) eq_refl ltac:(lia)).
Defined.

(** X6 on a sample: the first of March with no year, in a run of
    2020. *)
Lemma getDate_without_year_is_this_year_sample :
  getDate Sample.today (Number "1") (Str "mar") Undefined
  = Ok (Moment.UtcDay 2020 3 1).
Proof.
  exact (getDate_without_year_is_this_year Sample.today (Number "1") (Str "mar")
           1 2 eq_refl ltac:(lia) ltac:(lia) (or_introl eq_refl)).
Defined.

(** X8 on a sample: the 15th of " SETIEMBRE " 2020. *)
Lemma setiembre_is_september_sample :
  getDate Sample.today (Number "15") (Str " SETIEMBRE ") (Number "2020")
  = Ok (Moment.UtcDay 2020 9 15).
Proof.
  exact (proj1 (setiembre_is_september Sample.today (Number "15") (Number "2020")
                  " SETIEMBRE " 15 2020 eq_refl ltac:(lia) eq_refl ltac:(lia))
           ltac:(vm_compute; tauto)).
Defined.

(** X9 on a sample: the store that holds the second of August. *)
Lemma getLastDate_is_the_latest_sample :
  CurrencyDay.getLastDate Sample.stored_db = Ok (Some Sample.t_aug2) /\
  exists r, r ∈ CurrencyDay.currencyDay Sample.stored_db /\
            CurrencyDay.row_date r = Some Sample.t_aug2.
Proof.
  assert (E : CurrencyDay.getLastDate Sample.stored_db = Ok (Some Sample.t_aug2))
    by (vm_compute; reflexivity).
  destruct (getLastDate_is_the_latest Sample.stored_db eq_refl) as (lastDate & Hl & H).
  rewrite E in Hl. injection Hl as <-. destruct H as [Hex _].
  split; [exact E|exact Hex].
Defined.

(** X10 on a sample: asked for the third of August, the store answers
    with rows, those of the second. *)
Lemma getRatesFromDate_latest_on_or_before_sample :
  exists rates,
    CurrencyDay.getRatesFromDate (Sample.t_aug2 + Moment.msPerDay) Sample.stored_db
    = Ok rates /\
    forall r, r ∈ rates -> CurrencyDay.row_date r = Some Sample.t_aug2.
Proof.
  destruct (getRatesFromDate_latest_on_or_before (Sample.t_aug2 + Moment.msPerDay)
              Sample.stored_db eq_refl) as (rates & H & Hmem & _).
  exists rates. split; [exact H|]. intros r Hr.
  apply Hmem in Hr as [Hin _]. vm_compute in Hin.
  repeat (apply elem_of_cons in Hin as [-> | Hin]; [reflexivity|]). inversion Hin.
Defined.

(** X12 on a sample: the second of August inserted into the empty
    store, then read back. *)
Lemma insertDays_then_read_sample :
  CurrencyDay.insertDays (CurrencyDay.ArrayOfDays [Sample.day_aug2]) Sample.empty_db
  = (Ok 4, {| CurrencyDay.currencyDay := CurrencyDay.inserts_of [Sample.day_aug2];
              CurrencyDay.failure := None;
              CurrencyDay.writes := [CurrencyDay.inserts_of [Sample.day_aug2]] |}) /\
  exists rates,
    CurrencyDay.getRatesFromDate Sample.t_aug2
      {| CurrencyDay.currencyDay := CurrencyDay.inserts_of [Sample.day_aug2];
         CurrencyDay.failure := None;
         CurrencyDay.writes := [CurrencyDay.inserts_of [Sample.day_aug2]] |}
    = Ok rates /\
    CurrencyDay.insert_row Sample.day_aug2
      {| iso := "USD"; buy := Some "70.7"; sell := Some "71.2" |} ∈ rates.
Proof.
  assert (H : CurrencyDay.insertDays (CurrencyDay.ArrayOfDays [Sample.day_aug2])
                Sample.empty_db
              = (Ok 4, {| CurrencyDay.currencyDay := CurrencyDay.inserts_of [Sample.day_aug2];
                          CurrencyDay.failure := None;
                          CurrencyDay.writes := [CurrencyDay.inserts_of [Sample.day_aug2]] |}))
    by reflexivity.
  split; [exact H|].
  destruct (insertDays_then_read _ _ _ _ H) as (_ & _ & Hread).
  destruct (Hread Sample.day_aug2
              {| iso := "USD"; buy := Some "70.7"; sell := Some "71.2" |}
              Sample.t_aug2) as [_ Hrates].
  - apply list_elem_of_singleton. reflexivity.
  - left.
  - reflexivity.
  - exact Hrates.
Defined.

(** X16 on the sample: the day stored for the second of August. *)
Lemma every_day_has_four_currencies_sample :
  Sample.days_of None [Sample.aug1; Sample.aug2] !! "02/08/2020" = Some Sample.day_aug2 /\
  iso <$> currencies Sample.day_aug2 = ["USD"; "ARS"; "BRL"; "EUR"].
Proof.
  assert (H1 : makeArrayOfDays Sample.today Sample.columns Sample.codes None
                 [Sample.aug1; Sample.aug2]
               = Ok (Sample.days_of None [Sample.aug1; Sample.aug2]))
    by (vm_compute; reflexivity).
  assert (H2 : Sample.days_of None [Sample.aug1; Sample.aug2] !! "02/08/2020"
               = Some Sample.day_aug2) by (vm_compute; reflexivity).
  split; [exact H2|].
  exact (proj1 (every_day_has_four_currencies Sample.today Sample.columns Sample.codes
                  _ _ _ _ _ H1 H2)).
Defined.

(** X17 on the sample: three lines, two of them for the same day, and
    no more days than lines. *)
Lemma days_are_keyed_by_date_sample :
  makeArrayOfDays Sample.today Sample.columns Sample.codes None
    [Sample.aug1; Sample.aug2; Sample.aug2_again]
  = Ok (Sample.days_of None [Sample.aug1; Sample.aug2; Sample.aug2_again]) /\
  (size (Sample.days_of None [Sample.aug1; Sample.aug2; Sample.aug2_again]) <= 3)%nat.
Proof.
  assert (H1 : makeArrayOfDays Sample.today Sample.columns Sample.codes None
                 [Sample.aug1; Sample.aug2; Sample.aug2_again]
               = Ok (Sample.days_of None [Sample.aug1; Sample.aug2; Sample.aug2_again]))
    by (vm_compute; reflexivity).
  split; [exact H1|].
  exact (proj2 (proj2 (days_are_keyed_by_date Sample.today Sample.columns Sample.codes
                         _ _ _ H1))).
Defined.

(** X18 on the sample: with the first of August as last date, what is
    returned is what is returned with no last date, less the first of
    August. *)
Lemma last_date_only_filters_sample :
  Sample.days_of (Some Sample.t_aug1) [Sample.aug1; Sample.aug2] =
  filter (fun entry : string * Day => after Sample.t_aug1 entry.2 = true)
    (Sample.days_of None [Sample.aug1; Sample.aug2]) /\
  after Sample.t_aug1 Sample.day_aug1 = false /\
  after Sample.t_aug1 Sample.day_aug2 = true.
Proof.
  assert (H1 : makeArrayOfDays Sample.today Sample.columns Sample.codes None
                 [Sample.aug1; Sample.aug2]
               = Ok (Sample.days_of None [Sample.aug1; Sample.aug2]))
    by (vm_compute; reflexivity).
  assert (H2 : makeArrayOfDays Sample.today Sample.columns Sample.codes
                 (Some Sample.t_aug1) [Sample.aug1; Sample.aug2]
               = Ok (Sample.days_of (Some Sample.t_aug1) [Sample.aug1; Sample.aug2]))
    by (vm_compute; reflexivity).
  split; [|split; reflexivity].
  exact (last_date_only_filters Sample.today Sample.columns Sample.codes
           Sample.t_aug1 _ _ _ H1 H2).
Defined.




(** X20 on the sample: the line of March has a month and no year; its
    month is its own and its year is the year of the line above. *)
Lemma month_and_year_carried_separately_sample :
  context_at Sample.columns [Sample.aug1; Sample.mar1] 1 = (Str "mar", Number "2020").
Proof.
  refine (proj1 (month_and_year_carried_separately Sample.today Sample.columns
                   [Sample.aug1; Sample.mar1] 1%nat 0%nat 1%nat Sample.mar1 Sample.aug1
                   ltac:(lia) ltac:(lia) ltac:(simpl; lia) eq_refl eq_refl eq_refl eq_refl
                   _ _)).
  - intros k line_k Hk. lia.
  - intros k line_k Hk Hl. assert (k = 1%nat) as -> by lia.
    injection Hl as <-. reflexivity.
Defined.

(** X21 on the sample: a twelfth cell changes nothing. *)
Lemma only_the_named_columns_are_read_sample :
  makeArrayOfDays Sample.today Sample.columns Sample.codes None
    [Sample.aug1 ++ [Undefined; Undefined; Undefined; Undefined; Undefined; Undefined;
                     Str "a note"]]%list
  = makeArrayOfDays Sample.today Sample.columns Sample.codes None [Sample.aug1].
Proof.
  apply (only_the_named_columns_are_read Sample.today Sample.columns Sample.codes).
  constructor; [|constructor]. intros c Hc.
  unfold read_columns, quote_columns in Hc. simpl in Hc.
  repeat (apply elem_of_cons in Hc as [-> | Hc]; [reflexivity|]). inversion Hc.
Defined.

